(** * The JSON-constrained response protocol of day_2

    A shallow embedding of [day_2/gigachat_json_api.py] and of the copy of the
    same protocol in [day_2/chatbot_gui.py]: the response cleaner, the schema
    validator and the bounded retry loop around the completion provider.

    Python values are modelled as follows.
    - [str] is a sequence of Unicode code points: [list N].
    - a decoded JSON value is a [pyval]; a [dict] with [str] keys is a
      [gmap (list N) pyval].
    - exceptions are values of [exn]; a computation that can raise returns a
      sum [exn + A].
    - the provider is a function of the call number and of the chat it is
      handed; the state threaded through [send_json_request] is the number of
      provider calls made so far. *)

From Stdlib Require Import ZArith NArith Ascii String DecimalString SpecFloat.
From stdpp Require Import gmap strings list fin_maps.

Set Warnings "-register-all".
Local Open Scope Z_scope.

(** ** Python strings *)

Abbreviation pystr := (list N).

(** UTF-8 decoding of a literal of this file into code points. *)
Fixpoint utf8_decode (bs : list N) : pystr :=
  match bs with
  | [] => []
  | b0 :: r0 =>
      if (b0 <? 128)%N then b0 :: utf8_decode r0
      else match r0 with
      | [] => []
      | b1 :: r1 =>
          if (b0 <? 224)%N then
            ((b0 - 192) * 64 + (b1 - 128))%N :: utf8_decode r1
          else match r1 with
          | [] => []
          | b2 :: r2 =>
              if (b0 <? 240)%N then
                ((b0 - 224) * 4096 + (b1 - 128) * 64 + (b2 - 128))%N
                  :: utf8_decode r2
              else match r2 with
              | [] => []
              | b3 :: r3 =>
                  ((b0 - 240) * 262144 + (b1 - 128) * 4096
                   + (b2 - 128) * 64 + (b3 - 128))%N :: utf8_decode r3
              end
          end
      end
  end.

Definition py (s : string) : pystr :=
  utf8_decode (map N_of_ascii (list_ascii_of_string s)).

(** Literals that contain the double quote are written with the apostrophe,
    as Python allows; [dq] puts the double quotes back. *)
Definition dq (s : pystr) : pystr :=
  map (fun c => if (c =? 39)%N then 34%N else c) s.

Definition pyq (s : string) : pystr := dq (py s).

(** [str(n)] for an [int]. *)
Definition str_of_int (n : Z) : pystr :=
  py (NilEmpty.string_of_int (Z.to_int n)).

(** [str.isspace] on one code point (the table of [_PyUnicode_IsWhitespace]):
    this is the set [str.strip()] removes. *)
Definition isspace (c : N) : bool :=
  ((9 <=? c) && (c <=? 13) || (28 <=? c) && (c <=? 32)
   || (c =? 133) || (c =? 160) || (c =? 5760)
   || (8192 <=? c) && (c <=? 8202)
   || (c =? 8232) || (c =? 8233) || (c =? 8239) || (c =? 8287)
   || (c =? 12288))%N.

Fixpoint lstrip (s : pystr) : pystr :=
  match s with
  | [] => []
  | c :: r => if isspace c then lstrip r else s
  end.

Definition rstrip (s : pystr) : pystr := reverse (lstrip (reverse s)).

(** [text.strip()] *)
Definition strip (s : pystr) : pystr := rstrip (lstrip s).

(** [text.startswith(p)] *)
Fixpoint startswith (s p : pystr) {struct p} : bool :=
  match p with
  | [] => true
  | a :: p' =>
      match s with
      | [] => false
      | b :: s' => (a =? b)%N && startswith s' p'
      end
  end.

(** [text.endswith(p)] *)
Definition endswith (s p : pystr) : bool :=
  startswith (reverse s) (reverse p).

(** [needle in hay] for two strings. *)
Fixpoint str_contains (needle hay : pystr) : bool :=
  startswith hay needle ||
  match hay with
  | [] => false
  | _ :: hay' => str_contains needle hay'
  end.

(** [text.find(c)] and [text.rfind(c)] for a one-character needle: the lowest
    and the highest index of [c], or [-1]. *)
Fixpoint find_from (c : N) (s : pystr) (i : Z) : Z :=
  match s with
  | [] => -1
  | x :: r => if (x =? c)%N then i else find_from c r (i + 1)
  end.

Definition find (s : pystr) (c : N) : Z := find_from c s 0.

Fixpoint rfind_from (c : N) (s : pystr) (i : Z) : Z :=
  match s with
  | [] => -1
  | x :: r =>
      let j := rfind_from c r (i + 1) in
      if j =? -1 then (if (x =? c)%N then i else -1) else j
  end.

Definition rfind (s : pystr) (c : N) : Z := rfind_from c s 0.

(** Slices with non-negative bounds: [text[lo:]], [text[:hi]], [text[lo:hi]];
    and [text[:-k]]. *)
Definition slice_from (s : pystr) (lo : Z) : pystr := drop (Z.to_nat lo) s.

Definition slice_to (s : pystr) (hi : Z) : pystr := take (Z.to_nat hi) s.

Definition slice (s : pystr) (lo hi : Z) : pystr :=
  take (Z.to_nat (hi - lo)) (drop (Z.to_nat lo) s).

Definition slice_drop_last (s : pystr) (k : Z) : pystr :=
  take (length s - Z.to_nat k)%nat s.

Definition lbrace : N := 123.
Definition rbrace : N := 125.
Definition fence : pystr := [96; 96; 96]%N.
Definition fence_json : pystr := [96; 96; 96; 106; 115; 111; 110]%N.

(** ** Decoded JSON values and exceptions *)

(** What [json.loads] can return. *)
Inductive pyval : Type :=
| PNone
| PBool (b : bool)
| PInt (z : Z)
| PFloat (f : spec_float)
| PStr (s : pystr)
| PList (l : list pyval)
| PDict (d : gmap pystr pyval).

(** The exceptions that can travel through [send_json_request].
    [JSONDecodeError] is a subclass of [ValueError]; [OtherError] stands for
    any class outside [ValueError] that the provider may raise. *)
Inductive exn : Type :=
| JSONDecodeError (msg : pystr)
| ValueError (msg : pystr)
| TypeError
| KeyError (key : pystr)
| ConnectionError (msg : pystr)
| OtherError (cls msg : pystr).

Definition isinstance_str (v : pyval) : bool :=
  match v with PStr _ => true | _ => false end.

Definition isinstance_list (v : pyval) : bool :=
  match v with PList _ => true | _ => false end.

(** [v == s] for a string literal [s]. *)
Definition eq_str (v : pyval) (s : pystr) : bool :=
  match v with PStr s' => bool_decide (s' = s) | _ => false end.

(** [field in container], with a string on the left. *)
Definition py_in (field : pystr) (container : pyval) : exn + bool :=
  match container with
  | PDict d => inr (bool_decide (is_Some (d !! field)))
  | PList l => inr (existsb (fun v => eq_str v field) l)
  | PStr s => inr (str_contains field s)
  | _ => inl TypeError
  end.

(** [container[key]], with a string key. *)
Definition py_getitem (container : pyval) (key : pystr) : exn + pyval :=
  match container with
  | PDict d =>
      match d !! key with
      | Some v => inr v
      | None => inl (KeyError key)
      end
  | _ => inl TypeError
  end.

(** [all(...)] over a generator whose items may raise: it stops at the first
    false item, and an item that raises before that raises. *)
Fixpoint py_all (items : list (exn + bool)) : exn + bool :=
  match items with
  | [] => inr true
  | inl e :: _ => inl e
  | inr false :: _ => inr false
  | inr true :: rest => py_all rest
  end.

(** [for point in v]: the items a [for] loop or a generator draws from [v]. *)
Definition py_iter (v : pyval) : exn + list pyval :=
  match v with
  | PList l => inr l
  | PStr s => inr (map (fun c => PStr [c]) s)
  | PDict d => inr (map (fun kv => PStr kv.1) (map_to_list d))
  | _ => inl TypeError
  end.

(** Sequencing of computations that may raise. *)
Definition bind_exn {A B : Type} (x : exn + A) (k : A -> exn + B) : exn + B :=
  match x with
  | inl e => inl e
  | inr a => k a
  end.

Declare Scope exn_scope.
Delimit Scope exn_scope with exn.
Notation "x <- c1 ;; c2" := (bind_exn c1 (fun x => c2))
  (at level 100, c1 at next level, right associativity) : exn_scope.

Definition s_answer : pystr := Eval vm_compute in py "answer".
Definition s_key_points : pystr := Eval vm_compute in py "key_points".
Definition s_sentiment : pystr := Eval vm_compute in py "sentiment".
Definition s_neutral : pystr := Eval vm_compute in py "neutral".
Definition s_positive : pystr := Eval vm_compute in py "positive".
Definition s_negative : pystr := Eval vm_compute in py "negative".

(** ** The provider and the monad of [send_json_request] *)

(** [MessagesRole], [Messages] and the message list of a [Chat]. *)
Inductive MessagesRole : Type := SYSTEM | USER | ASSISTANT.

Record Messages : Type := { role : MessagesRole; content : pystr }.

(** [client.chat(chat)] followed by [response.choices[0].message.content]:
    the reply to call number [n] (counted from 0) with the chat it is given
    is a text, or an exception raised by the transport. *)
Definition Provider : Type := nat -> list Messages -> exn + pystr.

(** A computation reads and updates the number of provider calls made so
    far, and returns a value or raises. *)
Definition M (A : Type) : Type := nat -> (exn + A) * nat.

Definition ret {A : Type} (a : A) : M A := fun n => (inr a, n).

Definition raise {A : Type} (e : exn) : M A := fun n => (inl e, n).

Definition bind {A B : Type} (m : M A) (k : A -> M B) : M B :=
  fun n =>
    match m n with
    | (inl e, n') => (inl e, n')
    | (inr a, n') => k a n'
    end.

Declare Scope m_scope.
Delimit Scope m_scope with M.
Notation "x <- c1 ;; c2" := (bind c1 (fun x => c2))
  (at level 100, c1 at next level, right associativity) : m_scope.

(** [range(n)] *)
Definition range (n : Z) : list Z := map Z.of_nat (seq 0 (Z.to_nat n)).

(** [json.loads]: an error message (the [str] of the [JSONDecodeError]) or
    the decoded value. The decoder belongs to the Python library; the
    protocol is modelled over any decoder. *)
Definition Decoder : Type := pystr -> pystr + pyval.

Definition loads (json_loads : Decoder) (text : pystr) : exn + pyval :=
  match json_loads text with
  | inl msg => inl (JSONDecodeError msg)
  | inr v => inr v
  end.

(** [SYSTEM_PROMPT]: the same text in both files. *)
Definition SYSTEM_PROMPT : pystr := pyq
"Ты - помощник, который ВСЕГДА отвечает ТОЛЬКО в формате JSON, без дополнительного текста.

КРИТИЧЕСКИ ВАЖНО:
- Твой ответ должен быть ТОЛЬКО валидным JSON-объектом
- НЕ добавляй никаких пояснений, комментариев или текста до или после JSON
- НЕ используй markdown-разметку (не заключай JSON в ```json блоки)
- Формат ответа ДОЛЖЕН быть строго следующим:

{
  'answer': 'Полный текстовый ответ на вопрос пользователя',
  'key_points': ['Массив', 'с', 'ключевыми', 'мыслями'],
  'sentiment': 'neutral|positive|negative'
}

Правила:
1. 'answer' - полный и развернутый ответ на вопрос пользователя
2. 'key_points' - массив строк с ключевыми мыслями из ответа (минимум 3 пункта)
3. 'sentiment' - один из трех вариантов: 'neutral', 'positive' или 'negative'

Пример правильного ответа:
{'answer': 'Искусственный интеллект в медицине...', 'key_points': ['Точность диагностики', 'Автоматизация процессов', 'Персонализированное лечение'], 'sentiment': 'positive'}

Помни: твой ответ - это ТОЛЬКО JSON, ничего больше!".

Definition structure_error : pystr :=
  py "Структура JSON не соответствует требованиям".

Definition retry_prompt_syntax : pystr :=
  SYSTEM_PROMPT ++ [10; 10]%N ++
  py "ВАЖНО: Твой предыдущий ответ был неверным. Отвечай ТОЛЬКО JSON, без дополнительного текста!".

Definition retry_prompt_structure : pystr :=
  SYSTEM_PROMPT ++ [10; 10]%N ++
  py "ОШИБКА: Твой ответ не соответствует требуемой структуре. Обязательно используй поля: answer (строка), key_points (массив строк), sentiment (neutral|positive|negative)".

Definition conversation (system_prompt user_message : pystr) : list Messages :=
  [ {| role := SYSTEM; content := system_prompt |};
    {| role := USER; content := user_message |} ].

(** ** [day_2/gigachat_json_api.py] *)

Module Api.

(** [gigachat_json_api.py], [clean_json_response]. *)
Definition clean_json_response (text : pystr) : pystr :=
  let text := strip text in
  let text :=
    if startswith text fence_json then slice_from text 7
    else if startswith text fence then slice_from text 3
    else text in
  let text := if endswith text fence then slice_drop_last text 3 else text in
  let text := strip text in
  let start_idx := find text lbrace in
  let end_idx := rfind text rbrace in
  if negb (start_idx =? -1) && negb (end_idx =? -1) && (end_idx >? start_idx)
  then slice text start_idx (end_idx + 1)
  else text.

(** [gigachat_json_api.py], [validate_json_response]. *)
Definition validate_json_response (response_data : pyval) : exn + bool :=
  (let required_fields := [s_answer; s_key_points; s_sentiment] in
   present <- py_all (map (fun field => py_in field response_data)
                          required_fields) ;;
   if negb present then inr false else
   answer <- py_getitem response_data s_answer ;;
   if negb (isinstance_str answer) then inr false else
   key_points <- py_getitem response_data s_key_points ;;
   if negb (isinstance_list key_points) then inr false else
   key_points <- py_getitem response_data s_key_points ;;
   points <- py_iter key_points ;;
   strings <- py_all (map (fun point => inr (isinstance_str point)) points) ;;
   if negb strings then inr false else
   let valid_sentiments := [s_neutral; s_positive; s_negative] in
   sentiment <- py_getitem response_data s_sentiment ;;
   if negb (existsb (eq_str sentiment) valid_sentiments) then inr false else
   inr true)%exn.

Section Protocol.

Variable json_loads : Decoder.
Variable client : Provider.

(** One provider call: it is counted whether it returns or raises. *)
Definition chat_content (chat : list Messages) : M pystr :=
  fun n => (client n chat, S n).

(** The body of the [try] of lines 183-194: clean, decode, validate. *)
Definition parse_response (response_text : pystr) : exn + pyval :=
  (let cleaned_text := clean_json_response response_text in
   json_data <- loads json_loads cleaned_text ;;
   valid <- validate_json_response json_data ;;
   if valid then inr json_data
   else inl (ValueError structure_error))%exn.

(** The [for attempt in range(max_retries)] loop of lines 182-231, with the
    rest of the range still to run and the current [response_text]. *)
Fixpoint attempts (user_message : pystr) (max_retries : Z)
    (todo : list Z) (response_text : pystr) : M pyval :=
  match todo with
  | [] => raise (ValueError (py "Не удалось получить валидный ответ"))
  | attempt :: todo' =>
      match parse_response response_text with
      | inr json_data => ret json_data
      | inl (JSONDecodeError e) =>
          if attempt <? max_retries - 1 then
            (response_text <- chat_content
               (conversation retry_prompt_syntax user_message) ;;
             attempts user_message max_retries todo' response_text)%M
          else
            raise (ValueError
              (py "Не удалось распарсить JSON после "
               ++ str_of_int max_retries ++ py " попыток. "
               ++ py "Ответ от API: " ++ slice_to response_text 200
               ++ py "... " ++ py "Ошибка парсинга: " ++ e))
      | inl (ValueError e) =>
          if attempt <? max_retries - 1 then
            (response_text <- chat_content
               (conversation retry_prompt_structure user_message) ;;
             attempts user_message max_retries todo' response_text)%M
          else
            raise (ValueError
              (py "Не удалось получить валидный JSON после "
               ++ str_of_int max_retries ++ py " попыток. "
               ++ py "Ошибка валидации: " ++ e))
      | inl e => raise e
      end
  end.

(** [gigachat_json_api.py], [send_json_request], for a client that
    [get_gigachat_client] has returned. The outer [except Exception] re-raises
    what it catches and the [finally] block only closes the client. *)
Definition send_json_request (user_message : pystr) (max_retries : Z)
    : M pyval :=
  (let messages := conversation SYSTEM_PROMPT user_message in
   response_text <- chat_content messages ;;
   attempts user_message max_retries (range max_retries) response_text)%M.

End Protocol.

End Api.

(** ** [day_2/chatbot_gui.py] *)

Module Gui.

(** [chatbot_gui.py], [validate_json_response]. *)
Definition validate_json_response (response_data : pyval) : exn + bool :=
  (let required_fields := [s_answer; s_key_points; s_sentiment] in
   present <- py_all (map (fun field => py_in field response_data)
                          required_fields) ;;
   if negb present then inr false else
   answer <- py_getitem response_data s_answer ;;
   if negb (isinstance_str answer) then inr false else
   key_points <- py_getitem response_data s_key_points ;;
   if negb (isinstance_list key_points) then inr false else
   key_points <- py_getitem response_data s_key_points ;;
   points <- py_iter key_points ;;
   strings <- py_all (map (fun point => inr (isinstance_str point)) points) ;;
   if negb strings then inr false else
   let valid_sentiments := [s_neutral; s_positive; s_negative] in
   sentiment <- py_getitem response_data s_sentiment ;;
   if negb (existsb (eq_str sentiment) valid_sentiments) then inr false else
   inr true)%exn.

(** [chatbot_gui.py], [clean_json_response]. *)
Definition clean_json_response (text : pystr) : pystr :=
  let text := strip text in
  let text :=
    if startswith text fence_json then slice_from text 7
    else if startswith text fence then slice_from text 3
    else text in
  let text := if endswith text fence then slice_drop_last text 3 else text in
  let text := strip text in
  let start_idx := find text lbrace in
  let end_idx := rfind text rbrace in
  if negb (start_idx =? -1) && negb (end_idx =? -1) && (end_idx >? start_idx)
  then slice text start_idx (end_idx + 1)
  else text.

Section Protocol.

Variable json_loads : Decoder.
Variable client : Provider.

(** The provider call of line 124, inside the [try]: what it raises is
    handed to the handlers of that [try], so the reply is returned as a
    value. *)
Definition chat_reply (chat : list Messages) : M (exn + pystr) :=
  fun n => (inr (client n chat), S n).

(** Lines 127-137: clean, decode, validate. *)
Definition parse_response (response_text : pystr) : exn + pyval :=
  (let cleaned_text := clean_json_response response_text in
   json_data <- loads json_loads cleaned_text ;;
   valid <- validate_json_response json_data ;;
   if valid then inr json_data
   else inl (ValueError structure_error))%exn.

(** [response_text[:200] if response_text else 'Нет ответа'] *)
Definition response_excerpt (response_text : option pystr) : pystr :=
  match response_text with
  | Some (c :: r) => slice_to (c :: r) 200
  | _ => py "Нет ответа"
  end.

(** The [for attempt in range(max_retries)] loop of lines 121-166, with the
    rest of the range still to run, the current [chat] and the current
    [response_text] ([None] before the first reply). *)
Fixpoint attempts (user_message : pystr) (max_retries : Z)
    (todo : list Z) (chat : list Messages) (response_text : option pystr)
    : M pyval :=
  match todo with
  | [] =>
      raise (ValueError
        (py "Не удалось получить валидный ответ после всех попыток"))
  | attempt :: todo' =>
      (reply <- chat_reply chat ;;
       let response_text :=
         match reply with
         | inr text => Some text
         | inl _ => response_text
         end in
       match (text <- reply ;; parse_response text)%exn with
       | inr json_data => ret json_data
       | inl (JSONDecodeError e) =>
           if attempt <? max_retries - 1 then
             attempts user_message max_retries todo'
               (conversation retry_prompt_syntax user_message) response_text
           else
             raise (ValueError
               (py "Не удалось распарсить JSON после "
                ++ str_of_int max_retries ++ py " попыток. "
                ++ py "Ответ от API: " ++ response_excerpt response_text
                ++ py "... " ++ py "Ошибка парсинга: " ++ e))
       | inl (ValueError e) =>
           if str_contains (py "Структура JSON") e
              && (attempt <? max_retries - 1) then
             attempts user_message max_retries todo'
               (conversation retry_prompt_structure user_message)
               response_text
           else raise (ValueError e)
       | inl e => raise e
       end)%M
  end.

(** [chatbot_gui.py], [send_json_request], for a client that is set (the
    guard of line 108 passes). *)
Definition send_json_request (user_message : pystr) (max_retries : Z)
    : M pyval :=
  let messages := conversation SYSTEM_PROMPT user_message in
  attempts user_message max_retries (range max_retries) messages None.

End Protocol.

End Gui.

(** ** A decoder for a fragment of JSON

    [json.loads] is not part of the repository. To run the protocol on
    concrete texts, here is a decoder for the JSON fragment made of objects,
    arrays, strings without escapes, integers, [true], [false] and [null],
    read the way [json.loads] reads it (white space is space, tab, line feed
    and carriage return; of two equal keys the later one wins). A text
    outside the fragment is reported as undecodable, with a message that
    carries no position. *)

Module Fragment.

Definition json_ws (c : N) : bool :=
  ((c =? 32) || (c =? 9) || (c =? 10) || (c =? 13))%N.

Fixpoint skip_ws (s : pystr) : pystr :=
  match s with
  | [] => []
  | c :: r => if json_ws c then skip_ws r else s
  end.

(** The characters of a string up to its closing quote, and what follows. *)
Fixpoint scan_string (s : pystr) (acc : pystr) : option (pystr * pystr) :=
  match s with
  | [] => None
  | c :: r =>
      if (c =? 34)%N then Some (reverse acc, r)
      else if (c =? 92)%N || (c <? 32)%N then None
      else scan_string r (c :: acc)
  end.

Definition is_digit (c : N) : bool := ((48 <=? c) && (c <=? 57))%N.

Fixpoint scan_digits (s : pystr) (acc : Z) : Z * pystr :=
  match s with
  | [] => (acc, [])
  | c :: r =>
      if is_digit c then scan_digits r (10 * acc + Z.of_N (c - 48))
      else (acc, s)
  end.

(** An integer literal: [0], or a non-zero digit followed by digits. A
    fraction or an exponent is outside the fragment. *)
Definition scan_int (s : pystr) : option (Z * pystr) :=
  match s with
  | [] => None
  | c :: r =>
      if negb (is_digit c) then None
      else
        let '(n, rest) := if (c =? 48)%N then (0, r) else scan_digits s 0 in
        match rest with
        | d :: _ =>
            if (d =? 46)%N || (d =? 101)%N || (d =? 69)%N then None
            else Some (n, rest)
        | [] => Some (n, rest)
        end
  end.

Fixpoint parse_value (fuel : nat) (s : pystr) : option (pyval * pystr) :=
  match fuel with
  | O => None
  | S fuel' =>
      match s with
      | 34 :: r =>
          match scan_string r [] with
          | Some (str, rest) => Some (PStr str, rest)
          | None => None
          end
      | 123 :: r => parse_members fuel' (skip_ws r) true ∅
      | 91 :: r => parse_elements fuel' (skip_ws r) true []
      | 110 :: 117 :: 108 :: 108 :: r => Some (PNone, r)
      | 116 :: 114 :: 117 :: 101 :: r => Some (PBool true, r)
      | 102 :: 97 :: 108 :: 115 :: 101 :: r => Some (PBool false, r)
      | 45 :: r =>
          match scan_int r with
          | Some (n, rest) => Some (PInt (- n), rest)
          | None => None
          end
      | _ =>
          match scan_int s with
          | Some (n, rest) => Some (PInt n, rest)
          | None => None
          end
      end
  end%N

with parse_members (fuel : nat) (s : pystr) (first : bool)
    (d : gmap pystr pyval) : option (pyval * pystr) :=
  match fuel with
  | O => None
  | S fuel' =>
      match s with
      | 125 :: r => if first then Some (PDict d, r) else None
      | 34 :: r =>
          match scan_string r [] with
          | Some (key, rest) =>
              match skip_ws rest with
              | 58 :: rest =>
                  match parse_value fuel' (skip_ws rest) with
                  | Some (v, rest) =>
                      match skip_ws rest with
                      | 44 :: rest =>
                          parse_members fuel' (skip_ws rest) false
                            (<[key := v]> d)
                      | 125 :: rest => Some (PDict (<[key := v]> d), rest)
                      | _ => None
                      end
                  | None => None
                  end
              | _ => None
              end
          | None => None
          end
      | _ => None
      end
  end%N

with parse_elements (fuel : nat) (s : pystr) (first : bool)
    (acc : list pyval) : option (pyval * pystr) :=
  match fuel with
  | O => None
  | S fuel' =>
      match s with
      | 93 :: r => if first then Some (PList (reverse acc), r) else None
      | _ =>
          match parse_value fuel' s with
          | Some (v, rest) =>
              match skip_ws rest with
              | 44 :: rest =>
                  parse_elements fuel' (skip_ws rest) false (v :: acc)
              | 93 :: rest => Some (PList (reverse (v :: acc)), rest)
              | _ => None
              end
          | None => None
          end
      end
  end%N.

Definition json_loads : Decoder := fun text =>
  match parse_value (S (length text)) (skip_ws text) with
  | Some (v, rest) =>
      match skip_ws rest with
      | [] => inr v
      | _ :: _ => inl (py "Extra data")
      end
  | None => inl (py "Expecting value")
  end.

End Fragment.

(** ** Vocabulary of the properties *)

(** A provider that answers every call with the next text of a script, and
    with the last one once the script is used up. *)
Definition scripted (script : list pystr) (last : pystr) : Provider :=
  fun n _ => inr (nth n script last).

(** A string is trimmed on the left when it is empty or starts with a
    character that is not white space. *)
Definition head_kept (s : pystr) : Prop :=
  match s with
  | [] => True
  | c :: _ => isspace c = false
  end.

(** The fence-stripped, trimmed form of a text: what [clean_json_response]
    holds in [text] when it starts looking for braces (line 128). *)
Definition unfenced (text : pystr) : pystr :=
  let text := strip text in
  let text :=
    if startswith text fence_json then slice_from text 7
    else if startswith text fence then slice_from text 3
    else text in
  let text := if endswith text fence then slice_drop_last text 3 else text in
  strip text.

(** The condition of line 135. *)
Definition brace_span (t : pystr) : bool :=
  negb (find t lbrace =? -1) && negb (rfind t rbrace =? -1)
  && (rfind t rbrace >? find t lbrace).

Definition is_string (v : pyval) : Prop := exists s, v = PStr s.

(** The schema in the words of the specification: the three keys are present,
    [answer] is a string, [key_points] is a list of strings and [sentiment]
    is one of the three labels. *)
Definition meets_schema (d : gmap pystr pyval) : Prop :=
  exists (answer : pystr) (key_points : list pyval) (sentiment : pystr),
    d !! s_answer = Some (PStr answer)
    /\ d !! s_key_points = Some (PList key_points)
    /\ Forall is_string key_points
    /\ d !! s_sentiment = Some (PStr sentiment)
    /\ sentiment ∈ [s_neutral; s_positive; s_negative].

(** The reply to call number [i] is the text [t], whatever chat is sent. *)
Definition answers (client : Provider) (i : nat) (t : pystr) : Prop :=
  forall chat, client i chat = inr t.

(** Call number [i] raises [e], whatever chat is sent. *)
Definition fails (client : Provider) (i : nat) (e : exn) : Prop :=
  forall chat, client i chat = inl e.

(** The cleaned form of [t] decodes to [v] and [v] validates. *)
Definition accepted (json_loads : Decoder) (t : pystr) (v : pyval) : Prop :=
  Api.parse_response json_loads t = inr v.

(** [t] is turned down by one of the two failures the loop retries on: its
    cleaned form does not decode, or it decodes and the validator returns
    [False]. *)
Definition rejected (json_loads : Decoder) (t : pystr) : Prop :=
  (exists msg, Api.parse_response json_loads t = inl (JSONDecodeError msg))
  \/ Api.parse_response json_loads t = inl (ValueError structure_error).

(** A transport error: not a [JSONDecodeError], and not a [ValueError] that
    carries the marker by which the coordinator knows its own validation
    error. *)
Definition transport (e : exn) : Prop :=
  match e with
  | JSONDecodeError _ => False
  | ValueError msg => str_contains (py "Структура JSON") msg = false
  | _ => True
  end.

(** Sample data. *)

(** A valid object, and the value it decodes to. *)
Definition valid_object : pystr :=
  pyq "{'answer':'x','key_points':['a','b','c'],'sentiment':'neutral'}".

Definition valid_value : pyval :=
  PDict (<[s_answer := PStr (py "x")]>
         (<[s_key_points := PList [PStr (py "a"); PStr (py "b");
                                   PStr (py "c")]]>
          (<[s_sentiment := PStr s_neutral]> ∅))).

(** The least mapping that meets the schema. *)
Definition d_minimal : gmap pystr pyval :=
  <[s_answer := PStr (py "x")]>
    (<[s_key_points := PList []]> (<[s_sentiment := PStr s_neutral]> ∅)).

(** An object whose sentiment is none of the three labels. *)
Definition wrong_sentiment : pystr :=
  pyq "{'answer':'x','key_points':['a'],'sentiment':'maybe'}".

(** An object that lacks two of the required fields. *)
Definition incomplete_object : pystr := pyq "{'answer': 'x'}".

(** A provider whose second call fails to connect. *)
Definition unplugged : Provider :=
  fun n _ =>
    match n with
    | 1%nat => inl (ConnectionError (py "connection refused"))
    | _ => inr (py "no json here")
    end.

(** ** Vocabulary of the further properties *)

(** [r] is a contiguous part of [x]. *)
Definition part_of (r x : pystr) : Prop :=
  exists pre post, x = pre ++ r ++ post.

(** Every character of [s] is white space. *)
Definition blank (s : pystr) : Prop := forallb isspace s = true.

(** The two system prompts of the retries. *)
Definition retry_prompts : list pystr :=
  [retry_prompt_syntax; retry_prompt_structure].

(** Two providers answer alike on the chats the protocol can send for the
    user message [um]: the first call with [SYSTEM_PROMPT], a later call with
    one of the two retry prompts, always with [um] itself as the user
    message. *)
Definition same_on_protocol_chats (um : pystr) (c1 c2 : Provider) : Prop :=
  c1 0%nat (conversation SYSTEM_PROMPT um)
  = c2 0%nat (conversation SYSTEM_PROMPT um)
  /\ forall (i : nat) (sp : pystr),
       (1 <= i)%nat -> sp ∈ retry_prompts ->
       c1 i (conversation sp um) = c2 i (conversation sp um).

(** The message of line 208 for the budget [n], the last reply [t] and the
    decoder's message [m]; [excerpt] is the part of the reply it shows. *)
Definition decode_exhausted_message (n : Z) (excerpt m : pystr) : pystr :=
  py "Не удалось распарсить JSON после " ++ str_of_int n
  ++ py " попыток. " ++ py "Ответ от API: " ++ excerpt
  ++ py "... " ++ py "Ошибка парсинга: " ++ m.

(** A provider that refuses every chat whose user message is not [um]. *)
Definition only_for (um : pystr) (c : Provider) : Provider :=
  fun i chat =>
    match chat with
    | [_; m] =>
        if bool_decide (content m = um) then c i chat
        else inl (OtherError (py "AssertionError") (py "user message changed"))
    | _ => inl (OtherError (py "AssertionError") (py "not two messages"))
    end.

(** A provider whose every call raises the same [JSONDecodeError]. *)
Definition garbled : Provider :=
  fun _ _ => inl (JSONDecodeError (py "Expecting value: line 1 column 1 (char 0)")).

(** ** [day_2/gigachat_json_api.py]: the client, the whole request, [main] *)

(** [bool(x)] for [x : str | None], as in [a or b] and [if not x]. *)
Definition truthy_str (x : option pystr) : bool :=
  match x with
  | Some (_ :: _) => true
  | _ => false
  end.

(** [a or b] *)
Definition py_or (a b : option pystr) : option pystr :=
  if truthy_str a then a else b.

(** [str(e)]. The text of a [TypeError] and of a [KeyError] is made by the
    interpreter and is left to [interp]; every other exception of the model
    carries its text. *)
Definition str_exn (interp : exn -> pystr) (e : exn) : pystr :=
  match e with
  | JSONDecodeError msg | ValueError msg | ConnectionError msg
  | OtherError _ msg => msg
  | TypeError | KeyError _ => interp e
  end.

(** [isinstance(e, ValueError)] and [isinstance(e, ConnectionError)]. *)
Definition is_value_error (e : exn) : bool :=
  match e with JSONDecodeError _ | ValueError _ => true | _ => false end.

Definition is_connection_error (e : exn) : bool :=
  match e with ConnectionError _ => true | _ => false end.

(** [GigaChat(credentials=..., verify_ssl_certs=False)] followed by
    [client.__enter__()]: the connected client, or the [str] of the
    [Exception] that one of the two raised. *)
Definition Connector : Type := pystr -> pystr + Provider.

(** What [print] writes, one item per call, and [traceback.print_exc()]. *)
Inductive Out : Type :=
| Print (line : pystr)
| PrintExc.

Module Client.

Definition missing_key_message : pystr :=
  py "Не найден ключ авторизации в переменных окружения." ++ [10%N]
  ++ py "Установите GIGACHAT_AUTH_DATA или GIGACHAT_CREDENTIALS в .env файле.".

(** [gigachat_json_api.py], [get_gigachat_client], with the environment
    [os.getenv] reads. *)
Definition get_gigachat_client (env : gmap pystr pystr) (connect : Connector)
    : exn + Provider :=
  let credentials :=
    py_or (env !! py "GIGACHAT_AUTH_DATA") (env !! py "GIGACHAT_CREDENTIALS") in
  match credentials with
  | Some (c :: r) =>
      match connect (c :: r) with
      | inr client => inr client
      | inl e =>
          inl (ConnectionError
                 (py "Не удалось подключиться к GigaChat API: " ++ e))
      end
  | _ => inl (ValueError missing_key_message)
  end.

Section Request.

Variable json_loads : Decoder.
Variable env : gmap pystr pystr.
Variable connect : Connector.

(** The whole of [send_json_request], lines 141-241: the client is obtained,
    [Api.send_json_request] runs lines 169-231 with it, and the [finally]
    block calls [client.__exit__] when there is a client, swallowing what
    that raises. A client object is truthy, so the guard of line 166 does not
    fire. The result comes with the number of provider calls and the number
    of [__exit__] calls. *)
Definition send_json_request (user_message : pystr) (max_retries : Z)
    : (exn + pyval) * (nat * nat) :=
  match get_gigachat_client env connect with
  | inl e => (inl e, (0%nat, 0%nat))
  | inr client =>
      let '(result, calls) :=
        Api.send_json_request json_loads client user_message max_retries
          0%nat in
      (result, (calls, 1%nat))
  end.

(** [json.dumps(result, ensure_ascii=False, indent=2)], and the text an
    f-string puts for a value. Both belong to Python. *)
Variable json_dumps : pyval -> pystr.
Variable py_str : pyval -> pystr.
Variable interp : exn -> pystr.

Definition rule : pystr := replicate 60 61%N.

Definition test_question : pystr :=
  py "Расскажи о преимуществах использования искусственного интеллекта в медицине.".

(** The three handlers of lines 276-283. *)
Definition report (e : exn) : list Out :=
  if is_value_error e then
    [Print ([10%N] ++ py "❌ Ошибка валидации: " ++ str_exn interp e)]
  else if is_connection_error e then
    [Print ([10%N] ++ py "❌ Ошибка подключения: " ++ str_exn interp e)]
  else
    [Print ([10%N] ++ py "❌ Неожиданная ошибка: " ++ str_exn interp e);
     PrintExc].

(** The lines [for i, point in enumerate(..., 1)] prints, from number [i]. *)
Fixpoint numbered (i : Z) (points : list pyval) : list Out :=
  match points with
  | [] => []
  | point :: rest =>
      Print (py "  " ++ str_of_int i ++ py ". " ++ py_str point)
        :: numbered (i + 1) rest
  end.

(** Lines 262-274: what is printed for a result, and the exception that
    stops the printing, if one does. *)
Definition show (result : pyval) : list Out * option exn :=
  let out :=
    [Print ([10%N] ++ rule); Print (py "РЕЗУЛЬТАТ:"); Print rule;
     Print (json_dumps result);
     Print ([10%N] ++ rule); Print (py "РАСШИФРОВКА:"); Print rule] in
  match py_getitem result s_answer with
  | inl e => (out, Some e)
  | inr answer =>
      let out :=
        out ++ [Print ([10%N] ++ py "Ответ:" ++ [10%N] ++ py_str answer
                       ++ [10%N]);
                Print (py "Ключевые моменты:")] in
      match bind_exn (py_getitem result s_key_points) py_iter with
      | inl e => (out, Some e)
      | inr points =>
          let out := out ++ numbered 1 points in
          match py_getitem result s_sentiment with
          | inl e => (out, Some e)
          | inr sentiment =>
              (out ++ [Print ([10%N] ++ py "Тональность: "
                              ++ py_str sentiment)], None)
          end
      end
  end.

(** [gigachat_json_api.py], [main]: everything it prints. *)
Definition main : list Out :=
  [Print rule;
   Print (py "GigaChat API - Запрос с гарантированным JSON-форматом");
   Print rule;
   Print ([10%N] ++ py "Вопрос: " ++ test_question ++ [10%N]);
   Print (py "Отправка запроса к GigaChat API...")]
  ++ match send_json_request test_question 3 with
     | (inl e, _) => report e
     | (inr result, _) =>
         match show result with
         | (out, None) => out
         | (out, Some e) => out ++ report e
         end
     end.

End Request.

End Client.

(** The environment with one key set. *)
Definition env_of (key value : pystr) : gmap pystr pystr := {[ key := value ]}.

(** A connector that hands out the provider [c] for the key [secret] and
    refuses every other key. *)
Definition connect_with (secret : pystr) (c : Provider) : Connector :=
  fun credentials =>
    if bool_decide (credentials = secret) then inr c
    else inl (py "401 Unauthorized").

(** Stand-ins for Python's formatting in the closed examples. *)
Definition str_of_text (v : pyval) : pystr :=
  match v with PStr s => s | _ => py "?" end.

(** ** [day_2/chatbot_gui.py]: the window *)

(** [bool(v)] for a decoded value. *)
Definition py_truthy (v : pyval) : bool :=
  match v with
  | PNone => false
  | PBool b => b
  | PInt z => negb (z =? 0)
  | PFloat (S754_zero _) => false
  | PFloat _ => true
  | PStr s => match s with [] => false | _ :: _ => true end
  | PList l => match l with [] => false | _ :: _ => true end
  | PDict d => negb (bool_decide (d = ∅))
  end.

Module ChatBotGUI.

(** The tags of [chat_display], the two widget states the code sets, and the
    dialogs of [messagebox]. *)
Inductive Tag : Type :=
  user_tag | bot_tag | error_tag | key_point_tag | sentiment_tag.

Inductive TkState : Type := NORMAL | DISABLED.

Inductive Dialog : Type :=
| showerror (title message : pystr)
| showinfo (title message : pystr).

(** The attributes and widget contents the methods read and write. The text
    of [chat_display] is the list of the pieces inserted, oldest first, each
    with its tag if it has one. *)
Record App : Type := {
  giga_client : option Provider;
  last_json_response : option pyval;
  show_json_button : TkState;
  send_button : TkState;
  send_button_text : pystr;
  message_entry : TkState;
  message_entry_text : pystr;
  chat_display : list (pystr * option Tag)
}.

(** What [get_bot_response] hands to [root.after(0, ...)]. *)
Inductive Callback : Type :=
| call_display_json_response (json_response : pyval)
| call_display_error (error_msg : pystr).

Definition insert (app : App) (pieces : list (pystr * option Tag)) : App :=
  {| giga_client := giga_client app;
     last_json_response := last_json_response app;
     show_json_button := show_json_button app;
     send_button := send_button app;
     send_button_text := send_button_text app;
     message_entry := message_entry app;
     message_entry_text := message_entry_text app;
     chat_display := chat_display app ++ pieces |}.

(** The last two statements of [display_json_response] and of
    [display_error] before [focus()]. *)
Definition enable_input (app : App) : App :=
  {| giga_client := giga_client app;
     last_json_response := last_json_response app;
     show_json_button := show_json_button app;
     send_button := NORMAL;
     send_button_text := py "Отправить";
     message_entry := NORMAL;
     message_entry_text := message_entry_text app;
     chat_display := chat_display app |}.

(** [init_gigachat]: the client, if one could be made, and the dialog shown
    otherwise. *)
Definition init_gigachat (env : gmap pystr pystr) (connect : Connector)
    : option Provider * list Dialog :=
  let credentials :=
    py_or (env !! py "GIGACHAT_AUTH_DATA") (env !! py "GIGACHAT_CREDENTIALS") in
  match credentials with
  | Some (c :: r) =>
      match connect (c :: r) with
      | inr client => (Some client, [])
      | inl e =>
          (None,
           [showerror (py "Ошибка подключения")
              (py "Не удалось подключиться к GigaChat API:" ++ [10%N] ++ e)])
      end
  | _ =>
      (None,
       [showerror (py "Ошибка")
          (py "Не найден ключ авторизации в переменных окружения."
           ++ [10; 10]%N
           ++ py "Создайте файл .env в корне проекта со следующим содержимым:"
           ++ [10%N] ++ py "GIGACHAT_CREDENTIALS=ваш_ключ_авторизации"
           ++ [10%N] ++ py "или" ++ [10%N]
           ++ py "GIGACHAT_AUTH_DATA=ваш_ключ_авторизации")])
  end.

(** [add_message]; [time_str] is [datetime.now().strftime("%H:%M")]. *)
Definition add_message (app : App) (time_str sender message : pystr) : App :=
  insert app
    ([(py "[" ++ time_str ++ py "] ", None)]
     ++ (if bool_decide (sender = py "user") then [(py "Вы: ", Some user_tag)]
         else if bool_decide (sender = py "bot")
              then [(py "Бот: ", Some bot_tag)]
         else if bool_decide (sender = py "error")
              then [(py "Ошибка: ", Some error_tag)]
         else [])
     ++ [(message ++ [10; 10]%N, None)]).

(** [__init__]: [init_gigachat], then the part of [create_widgets] that
    depends on the client. *)
Definition init (env : gmap pystr pystr) (connect : Connector)
    (time_str : pystr) : App * list Dialog :=
  let '(client, dialogs) := init_gigachat env connect in
  let app :=
    {| giga_client := client;
       last_json_response := None;
       show_json_button := DISABLED;
       send_button := match client with Some _ => NORMAL | None => DISABLED end;
       send_button_text := py "Отправить";
       message_entry := NORMAL;
       message_entry_text := [];
       chat_display := [] |} in
  (match client with
   | Some _ =>
       add_message app time_str (py "bot")
         (py "Привет! Я GigaChat AI. Готов помочь вам с любыми вопросами!"
          ++ [10; 10]%N
          ++ py "Ответы будут в структурированном JSON-формате с ключевыми моментами и тональностью.")
   | None =>
       add_message app time_str (py "error")
         (py "Ошибка: не удалось подключиться к GigaChat API")
   end, dialogs).

(** [send_message]: the new state and the message of the request started,
    if one is. A disabled [Text] ignores [delete]. *)
Definition send_message (app : App) (time_str : pystr) : App * option pystr :=
  match giga_client app with
  | None => (app, None)
  | Some _ =>
      let message := strip (message_entry_text app ++ [10%N]) in
      match message with
      | [] => (app, None)
      | _ :: _ =>
          let app :=
            {| giga_client := giga_client app;
               last_json_response := last_json_response app;
               show_json_button := show_json_button app;
               send_button := send_button app;
               send_button_text := send_button_text app;
               message_entry := message_entry app;
               message_entry_text :=
                 match message_entry app with
                 | NORMAL => []
                 | DISABLED => message_entry_text app
                 end;
               chat_display := chat_display app |} in
          let app := add_message app time_str (py "user") message in
          ({| giga_client := giga_client app;
              last_json_response := last_json_response app;
              show_json_button := show_json_button app;
              send_button := DISABLED;
              send_button_text := py "Отправка...";
              message_entry := DISABLED;
              message_entry_text := message_entry_text app;
              chat_display := chat_display app |}, Some message)
      end
  end.

Section Window.

Variable json_loads : Decoder.
Variable py_str : pyval -> pystr.
Variable interp : exn -> pystr.

(** [send_json_request] of [chatbot_gui.py] with its guard of line 108. *)
Definition send_json_request (client : option Provider)
    (user_message : pystr) (max_retries : Z) : (exn + pyval) * nat :=
  match client with
  | None =>
      (inl (ConnectionError (py "Клиент GigaChat не инициализирован")), 0%nat)
  | Some c => Gui.send_json_request json_loads c user_message max_retries 0%nat
  end.

(** [get_bot_response]: the callback it schedules and the number of provider
    calls it made. *)
Definition get_bot_response (app : App) (user_message : pystr)
    : Callback * nat :=
  match send_json_request (giga_client app) user_message 3 with
  | (inr json_response, calls) =>
      (call_display_json_response json_response, calls)
  | (inl e, calls) =>
      (call_display_error
         ((if is_value_error e then py "Ошибка валидации JSON: "
           else if is_connection_error e then py "Ошибка подключения: "
           else py "Произошла ошибка: ") ++ str_exn interp e), calls)
  end.

(** The dictionary lookup of line 362; a list or a mapping cannot be
    hashed. *)
Definition sentiment_ru (sentiment_text : pyval) : exn + pyval :=
  match sentiment_text with
  | PStr s =>
      inr (if bool_decide (s = s_positive) then PStr (py "Положительная")
           else if bool_decide (s = s_negative) then PStr (py "Отрицательная")
           else if bool_decide (s = s_neutral) then PStr (py "Нейтральная")
           else sentiment_text)
  | PList _ | PDict _ => inl TypeError
  | _ => inr sentiment_text
  end.

(** [add_json_response]: the state with the pieces inserted, and the
    exception that stops the method, if one does. *)
Definition add_json_response (app : App) (time_str : pystr)
    (json_data : pyval) : App * option exn :=
  let app :=
    insert app [(py "[" ++ time_str ++ py "] ", None);
                (py "Бот: ", Some bot_tag)] in
  match py_getitem json_data s_answer, json_data with
  | inl e, _ => (app, Some e)
  | inr _, (PNone | PBool _ | PInt _ | PFloat _ | PStr _ | PList _) =>
      (app, Some TypeError)
  | inr answer, PDict d =>
      let app := insert app [(py_str answer ++ [10; 10]%N, None)] in
      let key_points := default PNone (d !! s_key_points) in
      let listed :=
        if py_truthy key_points then
          match py_iter key_points with
          | inl e =>
              (insert app [(py "Ключевые моменты:" ++ [10%N], Some bot_tag)],
               Some e)
          | inr points =>
              (insert app
                 ([(py "Ключевые моменты:" ++ [10%N], Some bot_tag)]
                  ++ map (fun point =>
                            (py "  • " ++ py_str point ++ [10%N],
                             Some key_point_tag)) points
                  ++ [([10%N], None)]), None)
          end
        else (app, None) in
      match listed with
      | (app, Some e) => (app, Some e)
      | (app, None) =>
          let sentiment_text := default (PStr s_neutral) (d !! s_sentiment) in
          match sentiment_ru sentiment_text with
          | inl e => (app, Some e)
          | inr label =>
              (insert app [(py "Тональность: ", Some bot_tag);
                           (py_str label ++ [10; 10]%N, Some sentiment_tag)],
               None)
          end
      end
  end.

(** [display_json_response] and [display_error]. *)
Definition display_json_response (app : App) (time_str : pystr)
    (json_data : pyval) : App * option exn :=
  let app :=
    {| giga_client := giga_client app;
       last_json_response := Some json_data;
       show_json_button := NORMAL;
       send_button := send_button app;
       send_button_text := send_button_text app;
       message_entry := message_entry app;
       message_entry_text := message_entry_text app;
       chat_display := chat_display app |} in
  match add_json_response app time_str json_data with
  | (app, Some e) => (app, Some e)
  | (app, None) => (enable_input app, None)
  end.

Definition display_error (app : App) (time_str error_msg : pystr) : App :=
  enable_input (add_message app time_str (py "error") error_msg).

(** The callback run by the main loop. *)
Definition run (app : App) (time_str : pystr) (callback : Callback)
    : App * option exn :=
  match callback with
  | call_display_json_response json_response =>
      display_json_response app time_str json_response
  | call_display_error error_msg =>
      (display_error app time_str error_msg, None)
  end.

(** One exchange: [send_message], and, if it starts a request, the worker
    [get_bot_response] and the callback it schedules. The worker reads
    [giga_client] only, which nothing changes. *)
Definition exchange (app : App) (sent_at shown_at : pystr)
    : App * option exn :=
  match send_message app sent_at with
  | (app, None) => (app, None)
  | (app, Some message) =>
      run app shown_at (get_bot_response app message).1
  end.

End Window.

End ChatBotGUI.

(** The saved response and the button that shows it: nothing is saved and
    the button is disabled, or a mapping that meets the schema is saved and
    the button is enabled. *)
Definition saved_response_ok (app : ChatBotGUI.App) : Prop :=
  (ChatBotGUI.last_json_response app = None
   /\ ChatBotGUI.show_json_button app = ChatBotGUI.DISABLED)
  \/ (exists d, ChatBotGUI.last_json_response app = Some (PDict d)
                /\ meets_schema d
                /\ ChatBotGUI.show_json_button app = ChatBotGUI.NORMAL).

(** The Russian label of one of the three sentiments. *)
Definition russian (sentiment : pystr) : pystr :=
  if bool_decide (sentiment = s_positive) then py "Положительная"
  else if bool_decide (sentiment = s_negative) then py "Отрицательная"
  else py "Нейтральная".

(** What the chat shows for an answer, its key points and its sentiment. *)
Definition rendering (time_str answer : pystr) (points : list pystr)
    (sentiment : pystr) : list (pystr * option ChatBotGUI.Tag) :=
  [(py "[" ++ time_str ++ py "] ", None);
   (py "Бот: ", Some ChatBotGUI.bot_tag);
   (answer ++ [10; 10]%N, None)]
  ++ match points with
     | [] => []
     | _ :: _ =>
         [(py "Ключевые моменты:" ++ [10%N], Some ChatBotGUI.bot_tag)]
         ++ map (fun p => (py "  • " ++ p ++ [10%N],
                           Some ChatBotGUI.key_point_tag)) points
         ++ [([10%N], None)]
     end
  ++ [(py "Тональность: ", Some ChatBotGUI.bot_tag);
      (russian sentiment ++ [10; 10]%N, Some ChatBotGUI.sentiment_tag)].

(** A window with a client and a text typed. *)
Definition window (client : Provider) (text : pystr) : ChatBotGUI.App :=
  {| ChatBotGUI.giga_client := Some client;
     ChatBotGUI.last_json_response := None;
     ChatBotGUI.show_json_button := ChatBotGUI.DISABLED;
     ChatBotGUI.send_button := ChatBotGUI.NORMAL;
     ChatBotGUI.send_button_text := py "Отправить";
     ChatBotGUI.message_entry := ChatBotGUI.NORMAL;
     ChatBotGUI.message_entry_text := text;
     ChatBotGUI.chat_display := [] |}.

(** * Properties *)

(** ** Strings *)

Section Strings.

Implicit Types s p t pre mid post : pystr.

Lemma lstrip_fixed s : lstrip s = s <-> head_kept s.
Proof.
  destruct s as [|c r]; simpl; [tauto|].
  destruct (isspace c) eqn:E; split; try done.
  intros H. assert (Hlen : (length (lstrip r) <= length r)%nat).
  { clear. induction r as [|a r IH]; simpl; [lia|].
    destruct (isspace a); simpl; lia. }
  rewrite H in Hlen. simpl in Hlen. lia.
Qed.

Lemma lstrip_head_kept s : head_kept (lstrip s).
Proof.
  induction s as [|c r IH]; simpl; [done|].
  destruct (isspace c) eqn:E; [done|]. simpl. done.
Qed.

Lemma lstrip_suffix s : exists w, s = w ++ lstrip s.
Proof.
  induction s as [|c r [w IH]]; simpl; [by exists []|].
  destruct (isspace c).
  - exists (c :: w). simpl. by f_equal.
  - by exists [].
Qed.

Lemma rstrip_prefix s : exists w, s = rstrip s ++ w.
Proof.
  unfold rstrip. destruct (lstrip_suffix (reverse s)) as [w Hw].
  exists (reverse w).
  rewrite <- reverse_app, <- Hw. by rewrite reverse_involutive.
Qed.

Lemma rstrip_fixed s : rstrip s = s <-> head_kept (reverse s).
Proof.
  unfold rstrip. rewrite <- lstrip_fixed. split; intros H.
  - rewrite <- H at 2. by rewrite reverse_involutive.
  - by rewrite H, reverse_involutive.
Qed.

Lemma rstrip_head_kept s : head_kept s -> head_kept (rstrip s).
Proof.
  intros H. destruct (rstrip_prefix s) as [w Hw].
  destruct (rstrip s) as [|c r] eqn:E; [done|].
  rewrite Hw in H. exact H.
Qed.

Lemma strip_fixed s : head_kept s -> head_kept (reverse s) -> strip s = s.
Proof.
  intros H1 H2. unfold strip.
  apply lstrip_fixed in H1. rewrite H1. by apply rstrip_fixed.
Qed.

Lemma strip_trimmed s : head_kept (strip s) /\ head_kept (reverse (strip s)).
Proof.
  unfold strip. split.
  - apply rstrip_head_kept, lstrip_head_kept.
  - unfold rstrip. rewrite reverse_involutive. apply lstrip_head_kept.
Qed.

Lemma strip_idem s : strip (strip s) = strip s.
Proof. destruct (strip_trimmed s). by apply strip_fixed. Qed.

Lemma length_lstrip s : (length (lstrip s) <= length s)%nat.
Proof.
  destruct (lstrip_suffix s) as [w Hw]. rewrite Hw at 2.
  rewrite length_app. lia.
Qed.

Lemma length_strip s : (length (strip s) <= length s)%nat.
Proof.
  unfold strip, rstrip. rewrite length_reverse.
  etrans; [apply length_lstrip|]. rewrite length_reverse. apply length_lstrip.
Qed.

Lemma startswith_app s p : startswith s p = true <-> exists r, s = p ++ r.
Proof.
  revert s. induction p as [|a p IH]; intros s; simpl.
  - split; [intros _; by exists s|done].
  - destruct s as [|b s];
      [split; [intros; discriminate|intros [r Hr]; discriminate]|].
    rewrite andb_true_iff, IH, N.eqb_eq. split.
    + intros [-> [r ->]]. by exists r.
    + intros [r Hr]. injection Hr as -> ->. eauto.
Qed.

Lemma endswith_app s p : endswith s p = true <-> exists r, s = r ++ p.
Proof.
  unfold endswith. rewrite startswith_app. split; intros [r Hr].
  - exists (reverse r). apply (inj reverse).
    by rewrite Hr, reverse_app, reverse_involutive.
  - exists (reverse r). by rewrite Hr, reverse_app.
Qed.

(** [find] and [rfind] *)

Lemma find_from_app c pre post i :
  c ∉ pre -> find_from c (pre ++ c :: post) i = i + Z.of_nat (length pre).
Proof.
  revert i. induction pre as [|a pre IH]; intros i Hc; simpl.
  - rewrite N.eqb_refl. lia.
  - apply not_elem_of_cons in Hc as [Hne Hc].
    destruct (N.eqb_spec a c) as [->|_]; [done|].
    rewrite IH by done. lia.
Qed.

Lemma find_from_found c s i j :
  0 <= i -> find_from c s i = j -> j <> -1 ->
  exists pre post, s = pre ++ c :: post /\ (c ∉ pre)
                   /\ j = i + Z.of_nat (length pre).
Proof.
  revert i. induction s as [|a s IH]; intros i Hi Hj Hne; simpl in Hj.
  - congruence.
  - destruct (N.eqb_spec a c) as [->|Hac].
    + exists [], s. split; [done|]. split; [apply not_elem_of_nil|].
      simpl. lia.
    + destruct (IH (i + 1)) as (pre & post & -> & Hpre & Hlen);
        [lia|done|done|].
      exists (a :: pre), post. split; [done|]. split.
      * apply not_elem_of_cons. split; [congruence|done].
      * simpl length. lia.
Qed.

Lemma rfind_from_none c s i : c ∉ s -> rfind_from c s i = -1.
Proof.
  revert i. induction s as [|a s IH]; intros i Hc; simpl; [done|].
  apply not_elem_of_cons in Hc as [Hne Hc]. rewrite IH by done. simpl.
  destruct (N.eqb_spec a c) as [->|_]; done.
Qed.

Lemma rfind_from_app c pre post i :
  0 <= i -> c ∉ post ->
  rfind_from c (pre ++ c :: post) i = i + Z.of_nat (length pre).
Proof.
  revert i. induction pre as [|a pre IH]; intros i Hi Hc; simpl.
  - rewrite rfind_from_none by done. simpl. rewrite N.eqb_refl. lia.
  - rewrite IH by (done || lia).
    destruct (Z.eqb_spec (i + 1 + Z.of_nat (length pre)) (-1)); lia.
Qed.

Lemma rfind_from_absent c s i :
  0 <= i -> rfind_from c s i = -1 -> c ∉ s.
Proof.
  revert i. induction s as [|a s IH]; intros i Hi Hr; simpl in Hr.
  - apply not_elem_of_nil.
  - destruct (Z.eqb_spec (rfind_from c s (i + 1)) (-1)) as [Hj|Hj];
      [|congruence].
    destruct (N.eqb_spec a c) as [->|Hac]; [lia|].
    apply not_elem_of_cons. split; [congruence|].
    apply (IH (i + 1)); [lia|done].
Qed.

Lemma rfind_from_found c s i j :
  0 <= i -> rfind_from c s i = j -> j <> -1 ->
  exists pre post, s = pre ++ c :: post /\ (c ∉ post)
                   /\ j = i + Z.of_nat (length pre).
Proof.
  revert i j. induction s as [|a s IH]; intros i j Hi Hj Hne; simpl in Hj.
  - congruence.
  - destruct (Z.eqb_spec (rfind_from c s (i + 1)) (-1)) as [Hr|Hr].
    + destruct (N.eqb_spec a c) as [->|Hac]; [|congruence].
      exists [], s. split; [done|]. split; [|simpl; lia].
      apply (rfind_from_absent c s (i + 1)); [lia|done].
    + destruct (IH (i + 1) j) as (pre & post & -> & Hpost & Hlen);
        [lia|done|done|].
      exists (a :: pre), post. split; [done|]. split; [done|].
      simpl length. lia.
Qed.

End Strings.

(** ** The cleaner *)

Section Cleaner.

Implicit Types x r t pre mid post : pystr.

Lemma clean_unfold x :
  Api.clean_json_response x =
  if brace_span (unfenced x)
  then slice (unfenced x) (find (unfenced x) lbrace)
             (rfind (unfenced x) rbrace + 1)
  else unfenced x.
Proof. reflexivity. Qed.

Lemma gui_clean_eq x : Gui.clean_json_response x = Api.clean_json_response x.
Proof. reflexivity. Qed.

Lemma slice_braces pre mid post :
  lbrace ∉ pre -> rbrace ∉ post ->
  brace_span (pre ++ lbrace :: mid ++ rbrace :: post) = true
  /\ slice (pre ++ lbrace :: mid ++ rbrace :: post)
           (find (pre ++ lbrace :: mid ++ rbrace :: post) lbrace)
           (rfind (pre ++ lbrace :: mid ++ rbrace :: post) rbrace + 1)
     = lbrace :: mid ++ [rbrace].
Proof.
  intros Hpre Hpost.
  assert (Hf : find (pre ++ lbrace :: mid ++ rbrace :: post) lbrace
               = Z.of_nat (length pre)).
  { unfold find. rewrite find_from_app by done. lia. }
  assert (Hr : rfind (pre ++ lbrace :: mid ++ rbrace :: post) rbrace
               = Z.of_nat (length pre + 1 + length mid)).
  { unfold rfind.
    replace (pre ++ lbrace :: mid ++ rbrace :: post)
      with ((pre ++ lbrace :: mid) ++ rbrace :: post)
      by (by rewrite <- app_assoc).
    rewrite rfind_from_app by (done || lia).
    rewrite length_app. simpl length. lia. }
  unfold brace_span. rewrite Hf, Hr. split.
  - repeat (apply andb_true_intro; split).
    + apply negb_true_iff, Z.eqb_neq. lia.
    + apply negb_true_iff, Z.eqb_neq. lia.
    + apply Z.gtb_lt. lia.
  - unfold slice. rewrite Nat2Z.id, drop_app_length.
    replace (Z.to_nat (Z.of_nat (length pre + 1 + length mid) + 1
                       - Z.of_nat (length pre)))
      with (S (length (mid ++ [rbrace]))) by (rewrite length_app; simpl; lia).
    simpl. f_equal.
    replace (mid ++ rbrace :: post) with ((mid ++ [rbrace]) ++ post)
      by (by rewrite <- app_assoc).
    by rewrite take_app_length.
Qed.

Lemma brace_span_split t :
  brace_span t = true ->
  exists pre mid post,
    t = pre ++ lbrace :: mid ++ rbrace :: post
    /\ (lbrace ∉ pre) /\ (rbrace ∉ post).
Proof.
  unfold brace_span. intros H.
  apply andb_true_iff in H as [H Hgt]. apply andb_true_iff in H as [Hs He].
  apply negb_true_iff, Z.eqb_neq in Hs, He. apply Z.gtb_lt in Hgt.
  destruct (find_from_found lbrace t 0 _ ltac:(lia) eq_refl Hs)
    as (p1 & q1 & E1 & Hp1 & L1).
  destruct (rfind_from_found rbrace t 0 _ ltac:(lia) eq_refl He)
    as (p2 & q2 & E2 & Hq2 & L2).
  fold (find t lbrace) in L1. fold (rfind t rbrace) in L2.
  assert (Hlen : (length p1 < length p2)%nat) by lia.
  assert (E : p1 ++ lbrace :: q1 = p2 ++ rbrace :: q2) by congruence.
  apply app_eq_inv in E as [(k & Hk1 & Hk2)|(k & Hk1 & Hk2)].
  - rewrite Hk1, length_app in Hlen. lia.
  - destruct k as [|c k].
    + rewrite app_nil_r in Hk1. rewrite Hk1 in Hlen. lia.
    + simpl in Hk2. injection Hk2 as <- Hq1.
      exists p1, k, q2. split; [|done].
      by rewrite E1, Hq1.
Qed.

(** A text that starts with [{] and ends with [}] is left as it is. *)
Lemma unfenced_braced mid :
  unfenced (lbrace :: mid ++ [rbrace]) = lbrace :: mid ++ [rbrace].
Proof.
  assert (Hs : strip (lbrace :: mid ++ [rbrace]) = lbrace :: mid ++ [rbrace]).
  { apply strip_fixed; [done|]. by rewrite reverse_cons, reverse_snoc. }
  unfold unfenced. rewrite Hs.
  change (startswith (lbrace :: mid ++ [rbrace]) fence_json) with false.
  change (startswith (lbrace :: mid ++ [rbrace]) fence) with false.
  cbv iota.
  replace (endswith (lbrace :: mid ++ [rbrace]) fence) with false; [done|].
  unfold endswith. by rewrite reverse_cons, reverse_snoc.
Qed.

Lemma clean_braced mid :
  Api.clean_json_response (lbrace :: mid ++ [rbrace])
  = lbrace :: mid ++ [rbrace].
Proof.
  rewrite clean_unfold, unfenced_braced.
  destruct (slice_braces [] mid []) as [Hb Hs];
    [apply not_elem_of_nil|apply not_elem_of_nil|].
  simpl in Hb, Hs. by rewrite Hb, Hs.
Qed.

(** What the cleaner returns is trimmed, and either spans from [{] to [}] or
    has no such span. *)
Lemma clean_shape x :
  strip (Api.clean_json_response x) = Api.clean_json_response x
  /\ (brace_span (Api.clean_json_response x) = false
      \/ exists mid, Api.clean_json_response x = lbrace :: mid ++ [rbrace]).
Proof.
  rewrite clean_unfold. destruct (brace_span (unfenced x)) eqn:Hb.
  - destruct (brace_span_split _ Hb) as (pre & mid & post & E & Hpre & Hpost).
    destruct (slice_braces pre mid post Hpre Hpost) as [_ Hs].
    rewrite E, Hs. split; [|right; by exists mid].
    apply strip_fixed; [done|]. by rewrite reverse_cons, reverse_snoc.
  - split; [|by left]. unfold unfenced. apply strip_idem.
Qed.

Lemma startswith_fence_json r :
  startswith r fence = false -> startswith r fence_json = false.
Proof.
  intros H. destruct (startswith r fence_json) eqn:E; [|done].
  apply startswith_app in E as [w ->]. done.
Qed.

Lemma unfenced_fixed r :
  strip r = r -> startswith r fence = false -> endswith r fence = false ->
  unfenced r = r.
Proof.
  intros Hs Hf He. unfold unfenced.
  rewrite Hs, (startswith_fence_json _ Hf), Hf, He. done.
Qed.

Lemma length_slice t lo hi : (length (slice t lo hi) <= length t)%nat.
Proof. unfold slice. rewrite length_take, length_drop. lia. Qed.

Lemma length_clean x :
  (length (Api.clean_json_response x) <= length (unfenced x))%nat.
Proof.
  rewrite clean_unfold. destruct (brace_span (unfenced x)); [|done].
  apply length_slice.
Qed.

Lemma unfenced_shorter r :
  strip r = r -> startswith r fence = true \/ endswith r fence = true ->
  (length (unfenced r) < length r)%nat.
Proof.
  intros Hs H. unfold unfenced. rewrite Hs.
  eapply Nat.le_lt_trans; [apply length_strip|].
  destruct (startswith r fence) eqn:Hf.
  - assert (Hcut : exists k w, (0 < k)%nat /\ length r = (k + length w)%nat /\
      (if startswith r fence_json then slice_from r 7 else slice_from r 3)
      = w).
    { destruct (startswith r fence_json) eqn:Hj.
      - apply startswith_app in Hj as [w ->]. exists 7%nat, w.
        split; [lia|]. split; [done|]. done.
      - apply startswith_app in Hf as [w ->]. exists 3%nat, w.
        split; [lia|]. split; [done|]. done. }
    destruct Hcut as (k & w & Hk & Hlen & ->).
    destruct (endswith w fence); unfold slice_drop_last;
      rewrite ?length_take; lia.
  - destruct H as [H|H]; [done|].
    rewrite (startswith_fence_json _ Hf), H.
    apply endswith_app in H as [w ->].
    unfold slice_drop_last. rewrite length_take, length_app. simpl. lia.
Qed.

End Cleaner.

(** C4, as amended. The cleaner strips one layer of fences, so it is
    idempotent exactly on the inputs whose cleaned text has no fence left:
    for every [x], cleaning [clean_json_response x] again gives the same text
    if and only if [clean_json_response x] neither starts nor ends with the
    fence marker. *)
Theorem clean_idempotent_iff (x : pystr) :
  Api.clean_json_response (Api.clean_json_response x)
  = Api.clean_json_response x
  <-> startswith (Api.clean_json_response x) fence = false
      /\ endswith (Api.clean_json_response x) fence = false.
Proof.
  destruct (clean_shape x) as [Hs Hshape].
  set (r := Api.clean_json_response x) in *. split.
  - intros Hfix.
    destruct (startswith r fence) eqn:Hf, (endswith r fence) eqn:He;
      try done;
      (assert (Hlt : (length (unfenced r) < length r)%nat)
         by (apply unfenced_shorter; auto));
      pose proof (length_clean r) as Hle; rewrite Hfix in Hle; lia.
  - intros [Hf He]. destruct Hshape as [Hb|[mid E]].
    + rewrite clean_unfold, (unfenced_fixed r Hs Hf He), Hb. done.
    + rewrite E. apply clean_braced.
Qed.

(** C4, as stated, fails: a text with two opening fences and no braces is
    cleaned to a text that still starts with a fence, and cleaning that
    again removes it. *)
Lemma clean_not_idempotent :
  Api.clean_json_response (py "``````json") = py "```json"
  /\ Api.clean_json_response (Api.clean_json_response (py "``````json"))
     <> Api.clean_json_response (py "``````json").
Proof. split; [reflexivity | vm_compute; discriminate]. Qed.

(** C5. When the fence-stripped, trimmed form of the input has its first [{]
    before its last [}], both copies of the cleaner return the text from
    that [{] through that [}], and drop what surrounds it. *)
Theorem clean_slices_to_braces (x pre mid post : pystr) :
  unfenced x = pre ++ lbrace :: mid ++ rbrace :: post ->
  lbrace ∉ pre -> rbrace ∉ post ->
  Api.clean_json_response x = lbrace :: mid ++ [rbrace]
  /\ Gui.clean_json_response x = lbrace :: mid ++ [rbrace].
Proof.
  intros E Hpre Hpost.
  destruct (slice_braces pre mid post Hpre Hpost) as [Hb Hs].
  split; [|rewrite (gui_clean_eq x)]; rewrite clean_unfold, E, Hb, Hs; done.
Qed.

(** The third scenario of the specification: the prose around the object is
    dropped. *)
Lemma clean_slices_to_braces_witness :
  Api.clean_json_response
    (pyq "Sure! {'answer':'x','key_points':['a'],'sentiment':'positive'} Hope that helps!")
  = pyq "{'answer':'x','key_points':['a'],'sentiment':'positive'}"
  /\ Gui.clean_json_response
    (pyq "Sure! {'answer':'x','key_points':['a'],'sentiment':'positive'} Hope that helps!")
  = pyq "{'answer':'x','key_points':['a'],'sentiment':'positive'}".
Proof.
  apply (clean_slices_to_braces
           (pyq "Sure! {'answer':'x','key_points':['a'],'sentiment':'positive'} Hope that helps!")
           (py "Sure! ")
           (pyq "'answer':'x','key_points':['a'],'sentiment':'positive'")
           (py " Hope that helps!")).
  - vm_compute. reflexivity.
  - apply (bool_decide_unpack _). vm_compute. reflexivity.
  - apply (bool_decide_unpack _). vm_compute. reflexivity.
Defined.

(** ** The validator *)

Section Validator.

Implicit Types d : gmap pystr pyval.

Lemma gui_validate_eq v :
  Gui.validate_json_response v = Api.validate_json_response v.
Proof. reflexivity. Qed.

Lemma py_all_total (l : list pyval) :
  py_all (map (fun point => inr (isinstance_str point)) l)
  = inr (forallb isinstance_str l).
Proof.
  induction l as [|v l IH]; simpl; [done|].
  destruct (isinstance_str v); [exact IH|done].
Qed.

Lemma py_in_dict field d :
  py_in field (PDict d)
  = inr (match d !! field with Some _ => true | None => false end).
Proof.
  simpl. f_equal. destruct (d !! field) as [v|] eqn:E.
  - apply bool_decide_eq_true_2. by exists v.
  - apply bool_decide_eq_false_2. by intros [v Hv].
Qed.

(** On a mapping the validator never raises, and its verdict is this
    boolean. *)
Lemma validate_dict d :
  Api.validate_json_response (PDict d) =
  inr match d !! s_answer, d !! s_key_points, d !! s_sentiment with
      | Some (PStr _), Some (PList key_points), Some sentiment =>
          forallb isinstance_str key_points
          && existsb (eq_str sentiment) [s_neutral; s_positive; s_negative]
      | _, _, _ => false
      end.
Proof.
  unfold Api.validate_json_response. cbn [map py_all].
  rewrite !py_in_dict. unfold py_getitem.
  destruct (d !! s_answer) as [a|]; [|done].
  destruct (d !! s_key_points) as [k|]; [|by destruct a].
  destruct (d !! s_sentiment) as [s|]; [|by destruct a, k].
  cbn [py_all bind_exn negb].
  destruct a; try done. cbn [isinstance_str negb].
  destruct k; try done. cbn [isinstance_list negb bind_exn py_iter].
  rewrite py_all_total. cbn [bind_exn].
  destruct (forallb isinstance_str l); [|done]. cbn [negb andb].
  by destruct (existsb (eq_str s) [s_neutral; s_positive; s_negative]).
Qed.

Lemma forallb_is_string (l : list pyval) :
  forallb isinstance_str l = true <-> Forall is_string l.
Proof.
  rewrite forallb_forall, Forall_forall. split; intros H v Hv.
  - apply list_elem_of_In in Hv. specialize (H v Hv).
    destruct v; try done. by eexists.
  - apply list_elem_of_In in Hv. destruct (H v Hv) as [s ->]. done.
Qed.

Lemma existsb_sentiment (v : pyval) :
  existsb (eq_str v) [s_neutral; s_positive; s_negative] = true
  <-> exists s, v = PStr s /\ s ∈ [s_neutral; s_positive; s_negative].
Proof.
  rewrite existsb_exists. split.
  - intros (s & Hs & Hv). destruct v; try done.
    apply bool_decide_eq_true_1 in Hv. subst.
    eexists. split; [done|]. by apply list_elem_of_In.
  - intros (s & -> & Hs). exists s. split; [by apply list_elem_of_In|].
    by apply bool_decide_eq_true_2.
Qed.

Lemma validate_dict_true d :
  Api.validate_json_response (PDict d) = inr true <-> meets_schema d.
Proof.
  rewrite validate_dict. unfold meets_schema. split.
  - intros H. injection H as H.
    destruct (d !! s_answer) as [[]|]; try done.
    destruct (d !! s_key_points) as [[]|]; try done.
    destruct (d !! s_sentiment) as [v|]; try done.
    apply andb_true_iff in H as [Hk Hs].
    apply forallb_is_string in Hk.
    apply existsb_sentiment in Hs as (sv & -> & Hs).
    eauto 10.
  - intros (a & k & s & -> & -> & Hk & -> & Hs). f_equal.
    apply andb_true_iff. split; [by apply forallb_is_string|].
    apply existsb_sentiment. eauto.
Qed.

(** Off the mappings the validator returns [False] or raises [TypeError]. *)
Lemma validate_raises v e :
  Api.validate_json_response v = inl e -> e = TypeError.
Proof.
  destruct v as [| | | |s|l|d]; try (cbv; congruence).
  - unfold Api.validate_json_response. cbn [map py_in].
    destruct (py_all _) as [e'|[]] eqn:E; cbn [bind_exn negb py_getitem];
      try congruence.
    revert E. cbn [py_all].
    repeat match goal with |- context [str_contains ?a ?b] =>
      destruct (str_contains a b) end; congruence.
  - unfold Api.validate_json_response. cbn [map py_in].
    destruct (py_all _) as [e'|[]] eqn:E; cbn [bind_exn negb py_getitem];
      try congruence.
    revert E. cbn [py_all].
    repeat match goal with |- context [existsb ?a ?b] =>
      destruct (existsb a b) end; congruence.
  - rewrite validate_dict. congruence.
Qed.

End Validator.

(** C3. On every mapping [validate_json_response] returns a boolean and
    does not raise; the boolean is true exactly when the mapping meets the
    schema; and a mapping whose [key_points] is the empty list is valid. *)
Theorem validate_total_and_exact (d : gmap pystr pyval) :
  (exists b, Api.validate_json_response (PDict d) = inr b)
  /\ (Api.validate_json_response (PDict d) = inr true <-> meets_schema d)
  /\ (forall answer : pystr,
        Api.validate_json_response
          (PDict (<[s_answer := PStr answer]>
                  (<[s_key_points := PList []]>
                   (<[s_sentiment := PStr s_neutral]> ∅))))
        = inr true).
Proof.
  split; [rewrite validate_dict; eauto|].
  split; [apply validate_dict_true|].
  intros answer. apply validate_dict_true.
  exists answer, [], s_neutral.
  split; [reflexivity|]. split; [reflexivity|]. split; [constructor|].
  split; [reflexivity|]. set_solver.
Qed.

(** C8, as amended. The validator looks at the three required keys only:
    a mapping that holds the three required, correctly typed fields is
    valid, also when it holds a further key. *)
Theorem validate_ignores_extra_keys (d : gmap pystr pyval)
    (k : pystr) (v : pyval) :
  k ∉ [s_answer; s_key_points; s_sentiment] ->
  meets_schema d ->
  Api.validate_json_response (PDict (<[k := v]> d)) = inr true.
Proof.
  intros Hk (a & kp & s & Ha & Hkp & Hstr & Hs & Hin).
  apply validate_dict_true. exists a, kp, s.
  apply not_elem_of_cons in Hk as [H1 Hk].
  apply not_elem_of_cons in Hk as [H2 Hk].
  apply not_elem_of_cons in Hk as [H3 _].
  rewrite !lookup_insert_ne by done. done.
Qed.

Lemma validate_ignores_extra_keys_witness :
  Api.validate_json_response (PDict (<[py "extra" := PNone]> d_minimal))
  = inr true.
Proof.
  apply (validate_ignores_extra_keys d_minimal (py "extra") PNone).
  - apply (bool_decide_unpack _). vm_compute. reflexivity.
  - exists (py "x"), [], s_neutral.
    split; [reflexivity|]. split; [reflexivity|]. split; [constructor|].
    split; [reflexivity|]. apply (bool_decide_unpack _). vm_compute.
    reflexivity.
Defined.

(** C8, as stated, fails: this mapping has the three required fields,
    correctly typed, and the further key [extra], and the validator accepts
    it. *)
Lemma validate_accepts_extra_key :
  (<[py "extra" := PNone]> d_minimal) !! py "extra" = Some PNone
  /\ (py "extra" ∉ [s_answer; s_key_points; s_sentiment])
  /\ meets_schema (<[py "extra" := PNone]> d_minimal)
  /\ Api.validate_json_response (PDict (<[py "extra" := PNone]> d_minimal))
     <> inr false.
Proof.
  assert (Hk : py "extra" ∉ [s_answer; s_key_points; s_sentiment])
    by (apply (bool_decide_unpack _); vm_compute; reflexivity).
  assert (Hm : meets_schema (<[py "extra" := PNone]> d_minimal)).
  { exists (py "x"), [], s_neutral.
    split; [reflexivity|]. split; [reflexivity|]. split; [constructor|].
    split; [reflexivity|]. set_solver. }
  split; [reflexivity|]. split; [done|]. split; [done|].
  apply validate_dict_true in Hm. rewrite Hm. discriminate.
Qed.

(** C10. The two copies of the helpers agree on every input: the validators
    give the same verdict (or raise the same exception) on every value, and
    the cleaners return the same text. *)
Theorem helpers_agree :
  (forall v : pyval,
     Gui.validate_json_response v = Api.validate_json_response v)
  /\ (forall text : pystr,
        Gui.clean_json_response text = Api.clean_json_response text).
Proof. split; [exact gui_validate_eq | exact gui_clean_eq]. Qed.

(** ** The retry loop *)

Section Coordinator.

Variable json_loads : Decoder.
Variable client : Provider.
Variable user_message : pystr.
Variable max_retries : Z.

Local Abbreviation api_attempts :=
  (Api.attempts json_loads client user_message max_retries).
Local Abbreviation gui_attempts :=
  (Gui.attempts json_loads client user_message max_retries).

Lemma gui_parse_eq t :
  Gui.parse_response json_loads t = Api.parse_response json_loads t.
Proof. reflexivity. Qed.

Lemma marker_in_structure_error :
  str_contains (py "Структура JSON") structure_error = true.
Proof. vm_compute. reflexivity. Qed.

(** A reply is accepted, or rejected by one of the two failures the loop
    retries on, or makes the validator raise [TypeError]. *)
Lemma parse_response_cases t :
  (exists v, accepted json_loads t v) \/ rejected json_loads t
  \/ Api.parse_response json_loads t = inl TypeError.
Proof.
  unfold accepted, rejected, Api.parse_response, loads.
  destruct (json_loads (Api.clean_json_response t)) as [msg|v];
    cbn [bind_exn]; [right; left; left; by exists msg|].
  destruct (Api.validate_json_response v) as [e|[]] eqn:E; cbn [bind_exn].
  - apply validate_raises in E as ->. by right; right.
  - left. by exists v.
  - right. left. by right.
Qed.

(** One turn of the loop of [gigachat_json_api.py]. *)

Lemma api_turn_type_error attempt todo t calls :
  Api.parse_response json_loads t = inl TypeError ->
  api_attempts (attempt :: todo) t calls = (inl TypeError, calls).
Proof. intros H. cbn [Api.attempts]. rewrite H. reflexivity. Qed.

Lemma api_turn_accept attempt todo t v calls :
  accepted json_loads t v ->
  api_attempts (attempt :: todo) t calls = (inr v, calls).
Proof. intros H. cbn [Api.attempts]. rewrite H. reflexivity. Qed.

Lemma api_turn_retry attempt todo t calls :
  rejected json_loads t -> attempt < max_retries - 1 ->
  exists chat,
    api_attempts (attempt :: todo) t calls =
    match client calls chat with
    | inl e => (inl e, S calls)
    | inr t' => api_attempts todo t' (S calls)
    end.
Proof.
  intros [[msg H]|H] Hlt; cbn [Api.attempts]; rewrite H;
    apply Z.ltb_lt in Hlt; rewrite Hlt;
    eexists; unfold bind, Api.chat_content; reflexivity.
Qed.

Lemma api_turn_exhausted attempt todo t calls :
  rejected json_loads t -> ~ attempt < max_retries - 1 ->
  exists msg,
    api_attempts (attempt :: todo) t calls = (inl (ValueError msg), calls).
Proof.
  intros [[msg H]|H] Hlt; cbn [Api.attempts]; rewrite H;
    apply Z.ltb_nlt in Hlt; rewrite Hlt; eexists; reflexivity.
Qed.

(** One turn of the loop of [chatbot_gui.py]. *)

Lemma gui_turn_accept attempt todo chat rt t v calls :
  client calls chat = inr t -> accepted json_loads t v ->
  gui_attempts (attempt :: todo) chat rt calls = (inr v, S calls).
Proof.
  intros Hc H. cbn [Gui.attempts]. unfold bind at 1, Gui.chat_reply.
  rewrite Hc. cbn [bind_exn]. rewrite gui_parse_eq, H. reflexivity.
Qed.

Lemma gui_turn_retry attempt todo chat rt t calls :
  client calls chat = inr t ->
  rejected json_loads t -> attempt < max_retries - 1 ->
  exists chat',
    gui_attempts (attempt :: todo) chat rt calls
    = gui_attempts todo chat' (Some t) (S calls).
Proof.
  intros Hc Hr Hlt. apply Z.ltb_lt in Hlt.
  cbn [Gui.attempts]. unfold bind at 1, Gui.chat_reply.
  rewrite Hc. cbn [bind_exn]. rewrite gui_parse_eq.
  destruct Hr as [[msg H]|H]; rewrite H.
  - rewrite Hlt. eexists. reflexivity.
  - rewrite marker_in_structure_error, Hlt. eexists. reflexivity.
Qed.

Lemma gui_turn_exhausted attempt todo chat rt t calls :
  client calls chat = inr t ->
  rejected json_loads t -> ~ attempt < max_retries - 1 ->
  exists msg,
    gui_attempts (attempt :: todo) chat rt calls
    = (inl (ValueError msg), S calls).
Proof.
  intros Hc Hr Hlt. apply Z.ltb_nlt in Hlt.
  cbn [Gui.attempts]. unfold bind at 1, Gui.chat_reply.
  rewrite Hc. cbn [bind_exn]. rewrite gui_parse_eq.
  destruct Hr as [[msg H]|H]; rewrite H.
  - rewrite Hlt. eexists. reflexivity.
  - rewrite Hlt, andb_false_r. eexists. reflexivity.
Qed.

Lemma attempts_step (a len : nat) :
  map Z.of_nat (seq a (S len)) = Z.of_nat a :: map Z.of_nat (seq (S a) len).
Proof. reflexivity. Qed.

Lemma gui_turn_type_error attempt todo chat rt t calls :
  client calls chat = inr t ->
  Api.parse_response json_loads t = inl TypeError ->
  gui_attempts (attempt :: todo) chat rt calls = (inl TypeError, S calls).
Proof.
  intros Hc H. cbn [Gui.attempts]. unfold bind at 1, Gui.chat_reply.
  rewrite Hc. cbn [bind_exn]. rewrite gui_parse_eq, H. reflexivity.
Qed.

(** Runs on which every reply is rejected. *)

Lemma api_loop_rejected :
  (forall i, exists t, answers client i t /\ rejected json_loads t) ->
  forall (len a : nat) t calls,
    rejected json_loads t ->
    Z.of_nat (a + S len) = max_retries ->
    exists msg,
      api_attempts (map Z.of_nat (seq a (S len))) t calls
      = (inl (ValueError msg), (calls + len)%nat).
Proof.
  intros Hall. induction len as [|len IH]; intros a t calls Hr Hn.
  - rewrite Nat.add_0_r. apply api_turn_exhausted; [done|lia].
  - rewrite attempts_step.
    destruct (api_turn_retry (Z.of_nat a)
                (map Z.of_nat (seq (S a) (S len))) t calls Hr)
      as [chat ->]; [lia|].
    destruct (Hall calls) as (t' & Ht' & Hr'). rewrite Ht'.
    destruct (IH (S a) t' (S calls) Hr') as [msg ->]; [lia|].
    exists msg. f_equal. lia.
Qed.

Lemma gui_loop_rejected :
  (forall i, exists t, answers client i t /\ rejected json_loads t) ->
  forall (len a : nat) chat rt calls,
    Z.of_nat (a + len) = max_retries ->
    exists msg,
      gui_attempts (map Z.of_nat (seq a len)) chat rt calls
      = (inl (ValueError msg), (calls + len)%nat).
Proof.
  intros Hall. induction len as [|len IH]; intros a chat rt calls Hn.
  - rewrite Nat.add_0_r. eexists. reflexivity.
  - rewrite attempts_step. destruct (Hall calls) as (t & Ht & Hr).
    destruct (Z.lt_ge_cases (Z.of_nat a) (max_retries - 1)) as [Hlt|Hge].
    + destruct (gui_turn_retry (Z.of_nat a) (map Z.of_nat (seq (S a) len))
                  chat rt t calls (Ht chat) Hr Hlt) as [chat' ->].
      destruct (IH (S a) chat' (Some t) (S calls)) as [msg ->]; [lia|].
      exists msg. f_equal. lia.
    + destruct (gui_turn_exhausted (Z.of_nat a)
                  (map Z.of_nat (seq (S a) len)) chat rt t calls
                  (Ht chat) Hr) as [msg ->]; [lia|].
      exists msg. f_equal. lia.
Qed.

(** Runs on which [j] rejected replies are followed by an accepted one. *)

Lemma api_loop_accepted tk v :
  accepted json_loads tk v ->
  forall (j len a : nat) t calls,
    rejected json_loads t ->
    (forall i, (calls <= i < calls + j)%nat ->
               exists t', answers client i t' /\ rejected json_loads t') ->
    answers client (calls + j) tk ->
    Z.of_nat (a + len) = max_retries -> (j + 2 <= len)%nat ->
    api_attempts (map Z.of_nat (seq a len)) t calls
    = (inr v, (calls + j + 1)%nat).
Proof.
  intros Hv. induction j as [|j IH]; intros len a t calls Hr Hrej Hk Hn Hlen.
  - destruct len as [|[|len]]; [lia|lia|]. rewrite attempts_step.
    destruct (api_turn_retry (Z.of_nat a)
                (map Z.of_nat (seq (S a) (S len)))
                t calls Hr) as [chat ->]; [lia|].
    rewrite Nat.add_0_r in Hk. rewrite (Hk chat), attempts_step.
    rewrite (api_turn_accept _ _ tk v) by done. f_equal. lia.
  - destruct len as [|len]; [lia|]. rewrite attempts_step.
    destruct (api_turn_retry (Z.of_nat a)
                (map Z.of_nat (seq (S a) len)) t calls Hr)
      as [chat ->]; [lia|].
    destruct (Hrej calls) as (t' & Ht' & Hr'); [lia|]. rewrite (Ht' chat).
    rewrite (IH len (S a) t' (S calls) Hr'); [f_equal; lia| | |lia|lia].
    + intros i Hi. apply Hrej. lia.
    + replace (S calls + j)%nat with (calls + S j)%nat by lia. done.
Qed.

Lemma gui_loop_accepted tk v :
  accepted json_loads tk v ->
  forall (j len a : nat) chat rt calls,
    (forall i, (calls <= i < calls + j)%nat ->
               exists t', answers client i t' /\ rejected json_loads t') ->
    answers client (calls + j) tk ->
    Z.of_nat (a + len) = max_retries -> (j + 1 <= len)%nat ->
    gui_attempts (map Z.of_nat (seq a len)) chat rt calls
    = (inr v, (calls + j + 1)%nat).
Proof.
  intros Hv. induction j as [|j IH]; intros len a chat rt calls Hrej Hk Hn Hlen.
  - destruct len as [|len]; [lia|]. rewrite attempts_step.
    rewrite Nat.add_0_r in Hk.
    rewrite (gui_turn_accept _ _ _ _ tk v) by done. f_equal. lia.
  - destruct len as [|len]; [lia|]. rewrite attempts_step.
    destruct (Hrej calls) as (t' & Ht' & Hr'); [lia|].
    destruct (gui_turn_retry (Z.of_nat a) (map Z.of_nat (seq (S a) len))
                chat rt t' calls (Ht' chat) Hr') as [chat' ->]; [lia|].
    rewrite (IH len (S a) chat' (Some t') (S calls)); [f_equal; lia| | |lia|lia].
    + intros i Hi. apply Hrej. lia.
    + replace (S calls + j)%nat with (calls + S j)%nat by lia. done.
Qed.

(** Runs on which call number [i] raises. *)

Lemma api_loop_transport i e :
  fails client i e ->
  forall todo t calls,
    (calls <= i)%nat ->
    (i < (api_attempts todo t calls).2)%nat ->
    api_attempts todo t calls = (inl e, S i).
Proof.
  intros Hf. induction todo as [|attempt todo IH]; intros t calls Hle Hlt.
  - simpl in Hlt. lia.
  - revert Hlt. cbn [Api.attempts].
    assert (Hcall : forall chat,
      (i < (bind (Api.chat_content client chat)
              (fun t' => api_attempts todo t') calls).2)%nat ->
      bind (Api.chat_content client chat)
        (fun t' => api_attempts todo t') calls = (inl e, S i)).
    { intros chat. unfold bind, Api.chat_content.
      destruct (decide (calls = i)) as [->|Hne].
      - rewrite (Hf chat). done.
      - destruct (client calls chat) as [e'|t']; simpl.
        + lia.
        + apply IH. lia. }
    destruct (Api.parse_response json_loads t) as [[m|m| |k|m|c m]|v];
      try (simpl; lia);
      destruct (attempt <? max_retries - 1); try apply Hcall; simpl; lia.
Qed.

Lemma gui_loop_transport i e :
  fails client i e -> transport e ->
  forall todo chat rt calls,
    (calls <= i)%nat ->
    (i < (gui_attempts todo chat rt calls).2)%nat ->
    gui_attempts todo chat rt calls = (inl e, S i).
Proof.
  intros Hf He.
  induction todo as [|attempt todo IH]; intros chat rt calls Hle Hlt.
  - simpl in Hlt. lia.
  - revert Hlt. cbn [Gui.attempts]. unfold bind, Gui.chat_reply.
    destruct (decide (calls = i)) as [->|Hne].
    + rewrite (Hf chat). cbn [bind_exn]. intros _.
      destruct e as [m|m| |k|m|c m]; try done.
      simpl in He. rewrite He. done.
    + destruct (bind_exn (client calls chat) (Gui.parse_response json_loads))
        as [[m|m| |k|m|c m]|v]; try (simpl; lia).
      * destruct (attempt <? max_retries - 1); [|simpl; lia].
        intros Hlt. apply IH; [lia|done].
      * destruct (str_contains (py "Структура JSON") m
                  && (attempt <? max_retries - 1)); [|simpl; lia].
        intros Hlt. apply IH; [lia|done].
Qed.

End Coordinator.

(** ** [send_json_request] *)

Section Requests.

Variable json_loads : Decoder.
Variable client : Provider.
Variable user_message : pystr.

Lemma range_seq (n : Z) : range n = map Z.of_nat (seq 0 (Z.to_nat n)).
Proof. reflexivity. Qed.

Lemma api_send_unfold max_retries :
  Api.send_json_request json_loads client user_message max_retries 0%nat =
  match client 0%nat (conversation SYSTEM_PROMPT user_message) with
  | inl e => (inl e, 1%nat)
  | inr t =>
      Api.attempts json_loads client user_message max_retries
        (range max_retries) t 1%nat
  end.
Proof. reflexivity. Qed.

(** The retry bound, for replies the loop retries on: when every reply is
    rejected, both variants make [max_retries] calls and raise
    [ValueError]. *)
Lemma retry_bound_on_rejected max_retries :
  1 <= max_retries ->
  (forall i, exists t, answers client i t /\ rejected json_loads t) ->
  (exists msg,
     Api.send_json_request json_loads client user_message max_retries 0%nat
     = (inl (ValueError msg), Z.to_nat max_retries))
  /\ (exists msg,
        Gui.send_json_request json_loads client user_message max_retries 0%nat
        = (inl (ValueError msg), Z.to_nat max_retries)).
Proof.
  intros Hn Hall. split.
  - rewrite api_send_unfold. destruct (Hall 0%nat) as (t & Ht & Hr).
    rewrite (Ht _), range_seq.
    destruct (Z.to_nat max_retries) as [|len] eqn:E; [lia|].
    destruct (api_loop_rejected json_loads client user_message max_retries
                Hall len 0%nat t 1%nat Hr) as [msg ->]; [lia|].
    exists msg. f_equal.
  - unfold Gui.send_json_request. rewrite range_seq.
    destruct (gui_loop_rejected json_loads client user_message max_retries
                Hall (Z.to_nat max_retries) 0%nat
                (conversation SYSTEM_PROMPT user_message) None 0%nat)
      as [msg ->]; [lia|].
    by exists msg.
Qed.

(** Success short-circuits, for replies the loop retries on: when the first
    [k - 1] replies are rejected and reply [k] is accepted, both variants
    make [k] calls and return the value decoded from reply [k]. *)
Lemma success_after_rejected max_retries (k : nat) tk v :
  (1 <= k)%nat -> Z.of_nat k <= max_retries ->
  (forall i, (i < k - 1)%nat ->
             exists t, answers client i t /\ rejected json_loads t) ->
  answers client (k - 1) tk -> accepted json_loads tk v ->
  Api.send_json_request json_loads client user_message max_retries 0%nat
  = (inr v, k)
  /\ Gui.send_json_request json_loads client user_message max_retries 0%nat
     = (inr v, k).
Proof.
  intros Hk Hn Hrej Htk Hv. split.
  - rewrite api_send_unfold, range_seq.
    destruct (decide (k = 1%nat)) as [->|Hne].
    + rewrite (Htk _).
      destruct (Z.to_nat max_retries) as [|len] eqn:E; [lia|].
      rewrite attempts_step. by apply api_turn_accept.
    + destruct (Hrej 0%nat) as (t & Ht & Hr); [lia|]. rewrite (Ht _).
      rewrite (api_loop_accepted json_loads client user_message max_retries
                 tk v Hv (k - 2) (Z.to_nat max_retries) 0%nat t 1%nat Hr);
        [f_equal; lia| | |lia|lia].
      * intros i Hi. apply Hrej. lia.
      * replace (1 + (k - 2))%nat with (k - 1)%nat by lia. done.
  - unfold Gui.send_json_request. rewrite range_seq.
    rewrite (gui_loop_accepted json_loads client user_message max_retries
               tk v Hv (k - 1) (Z.to_nat max_retries) 0%nat);
      [f_equal; lia| |done|lia|lia].
    intros i Hi. apply Hrej. lia.
Qed.

(** The gap in the loop: when the validator raises on the first reply, the
    [TypeError] leaves both variants after one call, whatever the budget. *)
Lemma type_error_escapes max_retries t :
  1 <= max_retries ->
  client 0%nat (conversation SYSTEM_PROMPT user_message) = inr t ->
  Api.parse_response json_loads t = inl TypeError ->
  Api.send_json_request json_loads client user_message max_retries 0%nat
  = (inl TypeError, 1%nat)
  /\ Gui.send_json_request json_loads client user_message max_retries 0%nat
     = (inl TypeError, 1%nat).
Proof.
  intros Hn Hc Ht. split.
  - rewrite api_send_unfold, Hc, range_seq.
    destruct (Z.to_nat max_retries) as [|len] eqn:E; [lia|].
    rewrite attempts_step. by apply api_turn_type_error.
  - unfold Gui.send_json_request. rewrite range_seq.
    destruct (Z.to_nat max_retries) as [|len] eqn:E; [lia|].
    rewrite attempts_step. by apply (gui_turn_type_error _ _ _ _ _ _ _ _ t).
Qed.

End Requests.

(** The scenarios of the specification, run with the fragment decoder. *)

Example scenario_valid_first :
  Api.send_json_request Fragment.json_loads (scripted [] valid_object)
    (py "hi") 3 0%nat = (inr valid_value, 1%nat)
  /\ Gui.send_json_request Fragment.json_loads (scripted [] valid_object)
       (py "hi") 3 0%nat = (inr valid_value, 1%nat).
Proof. split; vm_compute; reflexivity. Qed.

Example scenario_fenced_empty_key_points :
  exists v,
    accepted Fragment.json_loads
      (fence_json ++ [10%N]
       ++ pyq "{'answer':'x','key_points':[],'sentiment':'neutral'}"
       ++ [10%N] ++ fence) v.
Proof. eexists. vm_compute. reflexivity. Qed.

Example scenario_prose_three_times :
  (exists msg,
     Api.send_json_request Fragment.json_loads
       (scripted [] (py "I would rather not answer.")) (py "hi") 3 0%nat
     = (inl (ValueError msg), 3%nat))
  /\ (exists msg,
        Gui.send_json_request Fragment.json_loads
          (scripted [] (py "I would rather not answer.")) (py "hi") 3 0%nat
        = (inl (ValueError msg), 3%nat)).
Proof.
  apply (retry_bound_on_rejected Fragment.json_loads
           (scripted [] (py "I would rather not answer.")) (py "hi") 3);
    [lia|].
  intros i. exists (py "I would rather not answer."). split.
  - intros chat. unfold scripted. by destruct i.
  - left. eexists. vm_compute. reflexivity.
Qed.

Example scenario_valid_third :
  Api.send_json_request Fragment.json_loads
    (scripted [wrong_sentiment; wrong_sentiment] valid_object)
    (py "hi") 3 0%nat = (inr valid_value, 3%nat)
  /\ Gui.send_json_request Fragment.json_loads
       (scripted [wrong_sentiment; wrong_sentiment] valid_object)
       (py "hi") 3 0%nat = (inr valid_value, 3%nat).
Proof.
  apply (success_after_rejected Fragment.json_loads
           (scripted [wrong_sentiment; wrong_sentiment] valid_object)
           (py "hi") 3 3%nat valid_object valid_value); [lia|lia| | |].
  - intros i Hi. exists wrong_sentiment. split.
    + intros chat. unfold scripted.
      destruct i as [|[|i]]; [done|done|lia].
    + right. vm_compute. reflexivity.
  - intros chat. reflexivity.
  - vm_compute. reflexivity.
Qed.

(** C6. In both variants, a transport error raised by a provider call is what
    [send_json_request] raises, and that call is the last one: if call number
    [i] raises the transport error [e] and the request gets as far as making
    it, the request ends with [e] after [i + 1] calls. *)
Theorem transport_error_propagates (json_loads : Decoder) (client : Provider)
    (user_message : pystr) (max_retries : Z) (i : nat) (e : exn) :
  transport e -> fails client i e ->
  ((i < (Api.send_json_request json_loads client user_message
           max_retries 0%nat).2)%nat ->
   Api.send_json_request json_loads client user_message max_retries 0%nat
   = (inl e, S i))
  /\ ((i < (Gui.send_json_request json_loads client user_message
              max_retries 0%nat).2)%nat ->
      Gui.send_json_request json_loads client user_message max_retries 0%nat
      = (inl e, S i)).
Proof.
  intros He Hf. split.
  - rewrite api_send_unfold.
    destruct (decide (i = 0%nat)) as [->|Hne].
    + by rewrite (Hf _).
    + destruct (client 0%nat _) as [e'|t]; [simpl; lia|].
      apply api_loop_transport; [done|lia].
  - apply gui_loop_transport; [done|done|lia].
Qed.

Lemma transport_error_propagates_witness :
  Api.send_json_request Fragment.json_loads unplugged (py "hi") 3 0%nat
  = (inl (ConnectionError (py "connection refused")), 2%nat)
  /\ Gui.send_json_request Fragment.json_loads unplugged (py "hi") 3 0%nat
     = (inl (ConnectionError (py "connection refused")), 2%nat).
Proof.
  destruct (transport_error_propagates Fragment.json_loads unplugged
              (py "hi") 3 1%nat (ConnectionError (py "connection refused")))
    as [Hapi Hgui].
  - exact I.
  - intros chat. reflexivity.
  - split; [apply Hapi|apply Hgui]; vm_compute; lia.
Defined.

(** C9. With [max_retries = 0] the loop body never runs, so the reply is
    neither decoded nor validated, whatever the decoder: the variant of
    [gigachat_json_api.py] has made its one call before the loop and raises
    [ValueError]; the variant of [chatbot_gui.py] makes no call and raises
    [ValueError]. *)
Theorem zero_retries (json_loads : Decoder) (client : Provider)
    (user_message t : pystr) :
  client 0%nat (conversation SYSTEM_PROMPT user_message) = inr t ->
  Api.send_json_request json_loads client user_message 0 0%nat
  = (inl (ValueError (py "Не удалось получить валидный ответ")), 1%nat)
  /\ Gui.send_json_request json_loads client user_message 0 0%nat
     = (inl (ValueError
               (py "Не удалось получить валидный ответ после всех попыток")),
        0%nat).
Proof.
  intros Ht. split; [|reflexivity].
  rewrite api_send_unfold, Ht. reflexivity.
Qed.

(** Also a reply that is a valid schema object is thrown away. *)
Lemma zero_retries_witness :
  accepted Fragment.json_loads valid_object valid_value
  /\ Api.send_json_request Fragment.json_loads (scripted [] valid_object)
       (py "hi") 0 0%nat
     = (inl (ValueError (py "Не удалось получить валидный ответ")), 1%nat)
  /\ Gui.send_json_request Fragment.json_loads (scripted [] valid_object)
       (py "hi") 0 0%nat
     = (inl (ValueError
               (py "Не удалось получить валидный ответ после всех попыток")),
        0%nat).
Proof.
  split; [vm_compute; reflexivity|].
  apply (zero_retries Fragment.json_loads (scripted [] valid_object)
           (py "hi") valid_object).
  reflexivity.
Defined.

(** C1, at an input on which the code departs from it. The text [null]
    decodes, to [None], and does not meet the schema; the validator raises
    [TypeError] on it instead of returning [False], no handler of the loop
    catches that, and with [max_retries = 3] both variants end with
    [TypeError] after one call. *)
Theorem non_mapping_reply_escapes_retry (user_message : pystr) :
  Fragment.json_loads (Api.clean_json_response (py "null")) = inr PNone
  /\ Api.validate_json_response PNone = inl TypeError
  /\ Api.send_json_request Fragment.json_loads (scripted [] (py "null"))
       user_message 3 0%nat
     = (inl TypeError, 1%nat)
  /\ Gui.send_json_request Fragment.json_loads (scripted [] (py "null"))
       user_message 3 0%nat
     = (inl TypeError, 1%nat).
Proof. repeat split; reflexivity. Qed.

(** C2, at an input on which the code departs from it. The first reply is
    the invalid text [null] and the second a valid object; with
    [max_retries = 3] both variants end with [TypeError] after the first
    call, and the second reply is never asked for. *)
Theorem non_mapping_reply_preempts_success (user_message : pystr) :
  accepted Fragment.json_loads valid_object valid_value
  /\ Api.send_json_request Fragment.json_loads
       (scripted [py "null"] valid_object) user_message 3 0%nat
     = (inl TypeError, 1%nat)
  /\ Gui.send_json_request Fragment.json_loads
       (scripted [py "null"] valid_object) user_message 3 0%nat
     = (inl TypeError, 1%nat).
Proof. split; [vm_compute; reflexivity|]. split; reflexivity. Qed.

(** ** The message of the exhausted budget *)

(** When the last attempt fails to decode, the message carries the first 200
    characters of the last reply and the decoder's message. *)
Lemma exhausted_decode_message (json_loads : Decoder) (client : Provider)
    (user_message : pystr) (max_retries attempt : Z) (todo : list Z)
    (t e : pystr) (calls : nat) :
  Api.parse_response json_loads t = inl (JSONDecodeError e) ->
  ~ attempt < max_retries - 1 ->
  exists before between,
    Api.attempts json_loads client user_message max_retries
      (attempt :: todo) t calls
    = (inl (ValueError (before ++ slice_to t 200 ++ between ++ e)), calls)
    /\ (length (slice_to t 200) <= 200)%nat.
Proof.
  intros H Hlt. apply Z.ltb_nlt in Hlt. cbn [Api.attempts]. rewrite H, Hlt.
  exists (py "Не удалось распарсить JSON после "
          ++ str_of_int max_retries ++ py " попыток. "
          ++ py "Ответ от API: "),
         (py "... " ++ py "Ошибка парсинга: ").
  split.
  - unfold raise. do 3 f_equal. rewrite <- !app_assoc. reflexivity.
  - unfold slice_to. rewrite length_take. lia.
Qed.

(** C7, at an input on which the code departs from it. With
    [max_retries = 1] and a reply that decodes but lacks two of the fields,
    the budget is exhausted by a validation failure; the message names the
    failure, and no part of the reply occurs in it. *)
Theorem exhausted_validation_message_lacks_response (user_message : pystr) :
  Api.parse_response Fragment.json_loads incomplete_object
  = inl (ValueError structure_error)
  /\ Api.send_json_request Fragment.json_loads
       (scripted [] incomplete_object) user_message 1 0%nat
     = (inl (ValueError
               (py "Не удалось получить валидный JSON после 1 попыток. Ошибка валидации: Структура JSON не соответствует требованиям")),
        1%nat)
  /\ str_contains structure_error
       (py "Не удалось получить валидный JSON после 1 попыток. Ошибка валидации: Структура JSON не соответствует требованиям")
     = true
  /\ str_contains (slice_to incomplete_object 200)
       (py "Не удалось получить валидный JSON после 1 попыток. Ошибка валидации: Структура JSON не соответствует требованиям")
     = false
  /\ str_contains (slice_to incomplete_object 1)
       (py "Не удалось получить валидный JSON после 1 попыток. Ошибка валидации: Структура JSON не соответствует требованиям")
     = false.
Proof.
  split; [vm_compute; reflexivity|].
  split; [vm_compute; reflexivity|].
  split; [vm_compute; reflexivity|].
  split; vm_compute; reflexivity.
Qed.

(** * Further properties *)

(** ** The cleaner *)

Section CleanerParts.

Implicit Types x r s t : pystr.

Lemma part_of_refl s : part_of s s.
Proof. exists [], []. by rewrite app_nil_r. Qed.

Lemma part_of_trans r s t : part_of r s -> part_of s t -> part_of r t.
Proof.
  intros (p1 & q1 & ->) (p2 & q2 & ->).
  exists (p2 ++ p1), (q1 ++ q2). by rewrite <- !app_assoc.
Qed.

Lemma part_of_drop n s : part_of (drop n s) s.
Proof. exists (take n s), []. by rewrite app_nil_r, take_drop. Qed.

Lemma part_of_take n s : part_of (take n s) s.
Proof. exists [], (drop n s). simpl. by rewrite take_drop. Qed.

Lemma part_of_strip s : part_of (strip s) s.
Proof.
  unfold strip. apply part_of_trans with (lstrip s).
  - destruct (rstrip_prefix (lstrip s)) as [w Hw].
    exists [], w. simpl. done.
  - destruct (lstrip_suffix s) as [w Hw].
    exists w, []. by rewrite app_nil_r.
Qed.

Lemma part_of_slice s lo hi : part_of (slice s lo hi) s.
Proof.
  unfold slice. eapply part_of_trans; [apply part_of_take|apply part_of_drop].
Qed.

Lemma part_of_unfenced x : part_of (unfenced x) x.
Proof.
  unfold unfenced.
  eapply part_of_trans; [apply part_of_strip|].
  eapply part_of_trans; [|apply part_of_strip].
  eapply part_of_trans with
    (if startswith (strip x) fence_json then slice_from (strip x) 7
     else if startswith (strip x) fence then slice_from (strip x) 3
     else strip x).
  - destruct (endswith _ fence); [apply part_of_take|apply part_of_refl].
  - destruct (startswith (strip x) fence_json); [apply part_of_drop|].
    destruct (startswith (strip x) fence);
      [apply part_of_drop|apply part_of_refl].
Qed.

Lemma find_from_bounds c pre post i :
  0 <= i ->
  i <= find_from c (pre ++ c :: post) i <= i + Z.of_nat (length pre).
Proof.
  revert i. induction pre as [|a pre IH]; intros i Hi; simpl.
  - rewrite N.eqb_refl. lia.
  - destruct (N.eqb_spec a c); [lia|].
    specialize (IH (i + 1) ltac:(lia)). lia.
Qed.

Lemma rfind_from_range c s i :
  0 <= i -> rfind_from c s i = -1 \/ i <= rfind_from c s i.
Proof.
  revert i. induction s as [|a s IH]; intros i Hi; simpl; [by left|].
  destruct (IH (i + 1) ltac:(lia)) as [->|Hge]; simpl.
  - destruct (N.eqb_spec a c); [right; lia|by left].
  - destruct (Z.eqb_spec (rfind_from c s (i + 1)) (-1)); [lia|right; lia].
Qed.

Lemma rfind_from_lower c pre post i :
  0 <= i -> i + Z.of_nat (length pre) <= rfind_from c (pre ++ c :: post) i.
Proof.
  revert i. induction pre as [|a pre IH]; intros i Hi; simpl.
  - rewrite N.eqb_refl.
    destruct (rfind_from_range c post (i + 1) ltac:(lia)) as [->|Hge];
      simpl; [lia|].
    destruct (Z.eqb_spec (rfind_from c post (i + 1)) (-1)); lia.
  - specialize (IH (i + 1) ltac:(lia)).
    destruct (Z.eqb_spec (rfind_from c (pre ++ c :: post) (i + 1)) (-1));
      lia.
Qed.

(** A [{] followed, anywhere later, by a [}] makes the condition of line 135
    true. *)
Lemma brace_span_intro pre mid post :
  brace_span (pre ++ lbrace :: mid ++ rbrace :: post) = true.
Proof.
  pose proof (find_from_bounds lbrace pre (mid ++ rbrace :: post) 0
                ltac:(lia)) as Hf.
  pose proof (rfind_from_lower rbrace (pre ++ lbrace :: mid) post 0
                ltac:(lia)) as Hr.
  rewrite <- app_assoc in Hr. simpl in Hr.
  rewrite length_app in Hr. simpl in Hr.
  unfold brace_span, find, rfind.
  repeat (apply andb_true_intro; split).
  - apply negb_true_iff, Z.eqb_neq. lia.
  - apply negb_true_iff, Z.eqb_neq. lia.
  - apply Z.gtb_lt. lia.
Qed.

End CleanerParts.

(** X1. The cleaner only cuts. What [clean_json_response] returns is a
    contiguous part of its input, in both files: no character is added,
    changed or moved. *)
Theorem clean_is_part_of_input (x : pystr) :
  part_of (Api.clean_json_response x) x
  /\ part_of (Gui.clean_json_response x) x.
Proof.
  assert (H : part_of (Api.clean_json_response x) x).
  { rewrite clean_unfold. destruct (brace_span (unfenced x)).
    - eapply part_of_trans; [apply part_of_slice|apply part_of_unfenced].
    - apply part_of_unfenced. }
  split; [exact H|]. rewrite (gui_clean_eq x). exact H.
Qed.

(** X2. The shape of a cleaned text. What the cleaner returns has no white
    space at either end, and either runs from a [{] to a [}] or contains no
    [{] that comes before a [}]. *)
Theorem clean_result_shape (x : pystr) :
  strip (Api.clean_json_response x) = Api.clean_json_response x
  /\ ((exists mid, Api.clean_json_response x = lbrace :: mid ++ [rbrace])
      \/ forall pre mid post,
           Api.clean_json_response x
           <> pre ++ lbrace :: mid ++ rbrace :: post).
Proof.
  destruct (clean_shape x) as [Hs [Hb|Hm]]; split; try done.
  - right. intros pre mid post E. rewrite E, brace_span_intro in Hb. done.
  - by left.
Qed.

Section Fenced.

Implicit Types ws s core mid : pystr.

Lemma blank_reverse ws : blank ws -> blank (reverse ws).
Proof.
  unfold blank. rewrite !forallb_forall. intros H c Hc. apply H.
  apply list_elem_of_In. apply list_elem_of_In in Hc.
  by rewrite elem_of_reverse in Hc.
Qed.

Lemma lstrip_blank ws s : blank ws -> lstrip (ws ++ s) = lstrip s.
Proof.
  unfold blank. induction ws as [|c ws IH]; simpl; [done|].
  intros H. apply andb_true_iff in H as [-> H]. by apply IH.
Qed.

Lemma strip_padded ws1 core ws2 :
  blank ws1 -> blank ws2 -> core <> [] ->
  head_kept core -> head_kept (reverse core) ->
  strip (ws1 ++ core ++ ws2) = core.
Proof.
  intros H1 H2 Hne Hh Ht. unfold strip.
  rewrite (lstrip_blank _ _ H1).
  assert (Hl : lstrip (core ++ ws2) = core ++ ws2).
  { apply lstrip_fixed. destruct core; [done|exact Hh]. }
  rewrite Hl. unfold rstrip.
  rewrite reverse_app, (lstrip_blank _ _ (blank_reverse _ H2)).
  apply lstrip_fixed in Ht. by rewrite Ht, reverse_involutive.
Qed.

Lemma unfenced_fenced_object ws1 ws2 ws3 ws4 mid opening :
  blank ws1 -> blank ws2 -> blank ws3 -> blank ws4 ->
  opening ∈ [fence_json; fence] ->
  unfenced (ws1 ++ (opening ++ ws2 ++ (lbrace :: mid ++ [rbrace])
                    ++ ws3 ++ fence) ++ ws4)
  = lbrace :: mid ++ [rbrace].
Proof.
  intros H1 H2 H3 H4 Hop. unfold unfenced.
  rewrite strip_padded; [|done|done| | |].
  - assert (Hcut :
      (if startswith (opening ++ ws2 ++ (lbrace :: mid ++ [rbrace])
                      ++ ws3 ++ fence) fence_json
       then slice_from (opening ++ ws2 ++ (lbrace :: mid ++ [rbrace])
                        ++ ws3 ++ fence) 7
       else if startswith (opening ++ ws2 ++ (lbrace :: mid ++ [rbrace])
                           ++ ws3 ++ fence) fence
       then slice_from (opening ++ ws2 ++ (lbrace :: mid ++ [rbrace])
                        ++ ws3 ++ fence) 3
       else opening ++ ws2 ++ (lbrace :: mid ++ [rbrace]) ++ ws3 ++ fence)
      = ws2 ++ (lbrace :: mid ++ [rbrace]) ++ ws3 ++ fence).
    { apply elem_of_cons in Hop as [->|Hop].
      - reflexivity.
      - apply list_elem_of_singleton in Hop as ->.
        destruct ws2 as [|c ws2]; [reflexivity|].
        unfold blank in H2. simpl in H2.
        apply andb_true_iff in H2 as [Hc _].
        cbn [app fence fence_json startswith].
        rewrite !N.eqb_refl. cbn [andb].
        destruct (N.eqb_spec 106 c) as [<-|_]; [discriminate Hc|].
        reflexivity. }
    rewrite Hcut.
    assert (He : endswith (ws2 ++ (lbrace :: mid ++ [rbrace]) ++ ws3 ++ fence)
                   fence = true).
    { apply endswith_app. exists (ws2 ++ (lbrace :: mid ++ [rbrace]) ++ ws3).
      by rewrite <- !app_assoc. }
    rewrite He. unfold slice_drop_last.
    replace (ws2 ++ (lbrace :: mid ++ [rbrace]) ++ ws3 ++ fence)
      with ((ws2 ++ (lbrace :: mid ++ [rbrace]) ++ ws3) ++ fence)
      by (by rewrite <- !app_assoc).
    set (inner := ws2 ++ (lbrace :: mid ++ [rbrace]) ++ ws3).
    rewrite length_app.
    replace (length inner + length fence - Z.to_nat 3)%nat
      with (length inner) by (simpl; lia).
    rewrite take_app_length. unfold inner.
    apply strip_padded; [done|done|done|done|].
    by rewrite reverse_cons, reverse_snoc.
  - apply elem_of_cons in Hop as [->|Hop]; [done|].
    by apply list_elem_of_singleton in Hop as ->.
  - apply elem_of_cons in Hop as [->|Hop]; [done|].
    by apply list_elem_of_singleton in Hop as ->.
  - rewrite !reverse_app. done.
Qed.

End Fenced.

(** X3. A fenced object is unwrapped. When the text is an object (it starts
    with [{] and ends with [}]) inside a code fence, opened with or without
    the [json] tag, with any white space around the fences and around the
    object, both cleaners return exactly the object. *)
Theorem clean_unwraps_fenced_object (ws1 ws2 ws3 ws4 mid opening : pystr) :
  blank ws1 -> blank ws2 -> blank ws3 -> blank ws4 ->
  opening ∈ [fence_json; fence] ->
  Api.clean_json_response
    (ws1 ++ (opening ++ ws2 ++ (lbrace :: mid ++ [rbrace])
             ++ ws3 ++ fence) ++ ws4)
  = lbrace :: mid ++ [rbrace]
  /\ Gui.clean_json_response
       (ws1 ++ (opening ++ ws2 ++ (lbrace :: mid ++ [rbrace])
                ++ ws3 ++ fence) ++ ws4)
     = lbrace :: mid ++ [rbrace].
Proof.
  intros H1 H2 H3 H4 Hop.
  pose proof (unfenced_fenced_object ws1 ws2 ws3 ws4 mid opening
                H1 H2 H3 H4 Hop) as Hu.
  destruct (slice_braces [] mid []) as [Hb Hs];
    [apply not_elem_of_nil|apply not_elem_of_nil|].
  simpl in Hb, Hs.
  assert (H : Api.clean_json_response
    (ws1 ++ (opening ++ ws2 ++ (lbrace :: mid ++ [rbrace])
             ++ ws3 ++ fence) ++ ws4) = lbrace :: mid ++ [rbrace]).
  { rewrite clean_unfold, Hu. simpl. by rewrite Hb, Hs. }
  split; [exact H|]. exact H.
Qed.

(** The second scenario of the specification. *)
Lemma clean_unwraps_fenced_object_witness :
  Api.clean_json_response
    (pyq "```json
{'answer':'x','key_points':[],'sentiment':'neutral'}
```")
  = pyq "{'answer':'x','key_points':[],'sentiment':'neutral'}"
  /\ Gui.clean_json_response
    (pyq "```json
{'answer':'x','key_points':[],'sentiment':'neutral'}
```")
  = pyq "{'answer':'x','key_points':[],'sentiment':'neutral'}".
Proof.
  apply (clean_unwraps_fenced_object [] [10%N] [10%N] []
           (pyq "'answer':'x','key_points':[],'sentiment':'neutral'")
           fence_json).
  - reflexivity.
  - reflexivity.
  - reflexivity.
  - reflexivity.
  - apply (bool_decide_unpack _). vm_compute. reflexivity.
Defined.

(** ** The validator off the mappings *)

Section ValidatorOffMappings.

Lemma validate_scalar v :
  match v with PNone | PBool _ | PInt _ | PFloat _ => True | _ => False end ->
  Api.validate_json_response v = inl TypeError.
Proof. by destruct v. Qed.

Lemma validate_list l :
  Api.validate_json_response (PList l) =
  if existsb (fun v => eq_str v s_answer) l
     && existsb (fun v => eq_str v s_key_points) l
     && existsb (fun v => eq_str v s_sentiment) l
  then inl TypeError else inr false.
Proof.
  unfold Api.validate_json_response. cbn [map py_in py_all].
  destruct (existsb (fun v => eq_str v s_answer) l); [|done].
  destruct (existsb (fun v => eq_str v s_key_points) l); [|done].
  destruct (existsb (fun v => eq_str v s_sentiment) l); done.
Qed.

Lemma validate_str s :
  Api.validate_json_response (PStr s) =
  if str_contains s_answer s && str_contains s_key_points s
     && str_contains s_sentiment s
  then inl TypeError else inr false.
Proof.
  unfold Api.validate_json_response. cbn [map py_in py_all].
  destruct (str_contains s_answer s); [|done].
  destruct (str_contains s_key_points s); [|done].
  destruct (str_contains s_sentiment s); done.
Qed.

Lemma validate_true_dict v :
  Api.validate_json_response v = inr true ->
  exists d, v = PDict d /\ meets_schema d.
Proof.
  destruct v as [| | | |s|l|d]; try (cbv; congruence).
  - rewrite validate_str. by destruct (_ && _).
  - rewrite validate_list. by destruct (_ && _).
  - intros H. exists d. split; [done|]. by apply validate_dict_true.
Qed.

End ValidatorOffMappings.

(** X4. The validator on any decoded value. In both files the verdict is
    [True] only for a mapping that meets the schema. A value that is not a
    mapping is never accepted: [None], a boolean or a number raises
    [TypeError]; a list or a string gives [False], unless it contains all
    three field names (as elements, as substrings), and then it raises
    [TypeError] too. *)
Theorem validate_on_any_value (v : pyval) :
  (Api.validate_json_response v = inr true
   <-> exists d, v = PDict d /\ meets_schema d)
  /\ Gui.validate_json_response v = Api.validate_json_response v
  /\ match v with
     | PNone | PBool _ | PInt _ | PFloat _ =>
         Api.validate_json_response v = inl TypeError
     | PList l =>
         Api.validate_json_response v =
         if existsb (fun x => eq_str x s_answer) l
            && existsb (fun x => eq_str x s_key_points) l
            && existsb (fun x => eq_str x s_sentiment) l
         then inl TypeError else inr false
     | PStr s =>
         Api.validate_json_response v =
         if str_contains s_answer s && str_contains s_key_points s
            && str_contains s_sentiment s
         then inl TypeError else inr false
     | PDict d => exists b, Api.validate_json_response v = inr b
     end.
Proof.
  split; [|split; [reflexivity|]].
  - split; [apply validate_true_dict|].
    intros (d & -> & Hd). by apply validate_dict_true.
  - destruct v as [| | | |s|l|d]; try reflexivity.
    + apply validate_str.
    + apply validate_list.
    + rewrite validate_dict. eauto.
Qed.

(** ** What every run of [send_json_request] keeps *)

Section Runs.

Variable json_loads : Decoder.
Variable client : Provider.
Variable user_message : pystr.
Variable max_retries : Z.

Local Abbreviation api_loop :=
  (Api.attempts json_loads client user_message max_retries).
Local Abbreviation gui_loop :=
  (Gui.attempts json_loads client user_message max_retries).

Lemma accepted_valid t v :
  accepted json_loads t v ->
  json_loads (Api.clean_json_response t) = inr v
  /\ Api.validate_json_response v = inr true.
Proof.
  unfold accepted, Api.parse_response, loads.
  destruct (json_loads (Api.clean_json_response t)) as [m|v'];
    cbn [bind_exn]; [done|].
  destruct (Api.validate_json_response v') as [e|[]] eqn:E; cbn [bind_exn];
    intros H; by simplify_eq.
Qed.

Lemma parse_response_raises t e :
  Api.parse_response json_loads t = inl e ->
  (exists m, e = JSONDecodeError m) \/ e = ValueError structure_error
  \/ e = TypeError.
Proof.
  intros H. destruct (parse_response_cases json_loads t)
    as [[v Hv]|[[[m Hm]|Hs]|Ht]]; unfold accepted in *;
    rewrite H in *; simplify_eq; eauto.
Qed.

(** The value returned comes from the last reply. *)

Lemma api_loop_returns todo : forall t calls v calls',
  (1 <= calls)%nat -> (exists chat, client (calls - 1)%nat chat = inr t) ->
  api_loop todo t calls = (inr v, calls') ->
  (1 <= calls')%nat
  /\ exists chat t', client (calls' - 1)%nat chat = inr t'
                     /\ accepted json_loads t' v.
Proof.
  induction todo as [|attempt todo IH]; intros t calls v calls' Hc Ht;
    [done|].
  cbn [Api.attempts].
  assert (Hcall : forall chat,
    bind (Api.chat_content client chat) (fun t' => api_loop todo t') calls
    = (inr v, calls') ->
    (1 <= calls')%nat
    /\ exists chat' t', client (calls' - 1)%nat chat' = inr t'
                        /\ accepted json_loads t' v).
  { intros chat. unfold bind, Api.chat_content.
    destruct (client calls chat) as [e|t'] eqn:E; [done|].
    apply IH; [lia|]. exists chat.
    by replace (S calls - 1)%nat with calls by lia. }
  destruct (Api.parse_response json_loads t) as [[m|m| |k|m|c m]|v0] eqn:Hp;
    try done;
    try (destruct (attempt <? max_retries - 1); [apply Hcall|done]).
  intros H. injection H as <- <-. split; [done|].
  destruct Ht as [chat Hchat]. by exists chat, t.
Qed.

Lemma gui_loop_returns todo : forall chat rt calls v calls',
  gui_loop todo chat rt calls = (inr v, calls') ->
  (1 <= calls')%nat
  /\ exists chat' t', client (calls' - 1)%nat chat' = inr t'
                      /\ accepted json_loads t' v.
Proof.
  induction todo as [|attempt todo IH]; intros chat rt calls v calls'; [done|].
  cbn [Gui.attempts]. unfold bind, Gui.chat_reply.
  destruct (client calls chat) as [e|t] eqn:E; cbn [bind_exn].
  - destruct e as [m|m| |k|m|c m]; try done.
    + destruct (attempt <? max_retries - 1); [apply IH|done].
    + destruct (str_contains _ m && _); [apply IH|done].
  - rewrite gui_parse_eq.
    destruct (Api.parse_response json_loads t) as [[m|m| |k|m|c m]|v0] eqn:Hp;
      try done.
    + destruct (attempt <? max_retries - 1); [apply IH|done].
    + destruct (str_contains _ m && _); [apply IH|done].
    + intros H. injection H as <- <-. split; [lia|].
      exists chat, t. by replace (S calls - 1)%nat with calls by lia.
Qed.

(** The number of calls. *)

Lemma api_loop_calls : forall (len a : nat) t calls,
  Z.of_nat (a + len) = max_retries ->
  (calls <= (api_loop (map Z.of_nat (seq a len)) t calls).2
   <= calls + (len - 1))%nat.
Proof.
  induction len as [|len IH]; intros a t calls Hn; [simpl; lia|].
  rewrite attempts_step. cbn [Api.attempts].
  assert (Hcall : forall chat,
    Z.of_nat a < max_retries - 1 ->
    (calls <= (bind (Api.chat_content client chat)
                 (fun t' => api_loop (map Z.of_nat (seq (S a) len)) t')
                 calls).2 <= calls + (S len - 1))%nat).
  { intros chat Hlt. unfold bind, Api.chat_content.
    destruct (client calls chat) as [e|t']; [simpl; lia|].
    specialize (IH (S a) t' (S calls) ltac:(lia)). lia. }
  destruct (Api.parse_response json_loads t) as [[m|m| |k|m|c m]|v0];
    try (simpl; lia);
    (destruct (Z.ltb_spec (Z.of_nat a) (max_retries - 1));
     [by apply Hcall|simpl; lia]).
Qed.

Lemma gui_loop_calls todo : forall chat rt calls,
  (calls <= (gui_loop todo chat rt calls).2 <= calls + length todo)%nat.
Proof.
  induction todo as [|attempt todo IH]; intros chat rt calls; [simpl; lia|].
  cbn [Gui.attempts]. unfold bind, Gui.chat_reply. cbn [length].
  destruct (bind_exn (client calls chat) (Gui.parse_response json_loads))
    as [[m|m| |k|m|c m]|v0]; try (simpl; lia).
  - destruct (attempt <? max_retries - 1); [|simpl; lia].
    specialize (IH (conversation retry_prompt_syntax user_message)
                  (match client calls chat with
                   | inl _ => rt | inr text => Some text end) (S calls)).
    lia.
  - destruct (str_contains _ m && _); [|simpl; lia].
    specialize (IH (conversation retry_prompt_structure user_message)
                  (match client calls chat with
                   | inl _ => rt | inr text => Some text end) (S calls)).
    lia.
Qed.

(** The exceptions that leave the loop. *)

Lemma api_loop_raises todo : forall t calls e calls',
  api_loop todo t calls = (inl e, calls') ->
  (exists m, e = ValueError m) \/ e = TypeError
  \/ ((1 <= calls')%nat /\ exists chat, client (calls' - 1)%nat chat = inl e).
Proof.
  induction todo as [|attempt todo IH]; intros t calls e calls'.
  - intros H. injection H as <- <-. left. by eexists.
  - cbn [Api.attempts].
    assert (Hcall : forall chat,
      bind (Api.chat_content client chat) (fun t' => api_loop todo t') calls
      = (inl e, calls') ->
      (exists m, e = ValueError m) \/ e = TypeError
      \/ ((1 <= calls')%nat
          /\ exists chat', client (calls' - 1)%nat chat' = inl e)).
    { intros chat. unfold bind, Api.chat_content.
      destruct (client calls chat) as [e'|t'] eqn:E; [|apply IH].
      intros H. injection H as <- <-. right. right. split; [lia|].
      exists chat. by replace (S calls - 1)%nat with calls by lia. }
    destruct (Api.parse_response json_loads t) as [e0|v0] eqn:Hp; [|done].
    destruct (parse_response_raises t e0 Hp) as [[m ->]|[->| ->]].
    + destruct (attempt <? max_retries - 1); [apply Hcall|].
      intros H. injection H as <- <-. left. by eexists.
    + destruct (attempt <? max_retries - 1); [apply Hcall|].
      intros H. injection H as <- <-. left. by eexists.
    + intros H. injection H as <- <-. by right; left.
Qed.

Lemma gui_loop_raises todo : forall chat rt calls e calls',
  gui_loop todo chat rt calls = (inl e, calls') ->
  (exists m, e = ValueError m) \/ e = TypeError
  \/ ((forall m, e <> JSONDecodeError m) /\ (1 <= calls')%nat
      /\ exists chat', client (calls' - 1)%nat chat' = inl e).
Proof.
  induction todo as [|attempt todo IH]; intros chat rt calls e calls'.
  - intros H. injection H as <- <-. left. by eexists.
  - cbn [Gui.attempts]. unfold bind, Gui.chat_reply.
    destruct (client calls chat) as [e0|t] eqn:E; cbn [bind_exn].
    + destruct e0 as [m|m| |k|m|c m].
      * destruct (attempt <? max_retries - 1); [apply IH|].
        intros H. injection H as <- <-. left. by eexists.
      * destruct (str_contains _ m && _); [apply IH|].
        intros H. injection H as <- <-. left. by eexists.
      * intros H. injection H as <- <-. by right; left.
      * intros H. injection H as <- <-. right. right.
        split; [done|]. split; [lia|]. exists chat.
        by replace (S calls - 1)%nat with calls by lia.
      * intros H. injection H as <- <-. right. right.
        split; [done|]. split; [lia|]. exists chat.
        by replace (S calls - 1)%nat with calls by lia.
      * intros H. injection H as <- <-. right. right.
        split; [done|]. split; [lia|]. exists chat.
        by replace (S calls - 1)%nat with calls by lia.
    + rewrite gui_parse_eq.
      destruct (Api.parse_response json_loads t) as [e0|v0] eqn:Hp; [|done].
      destruct (parse_response_raises t e0 Hp) as [[m ->]|[->| ->]].
      * destruct (attempt <? max_retries - 1); [apply IH|].
        intros H. injection H as <- <-. left. by eexists.
      * destruct (str_contains _ _ && _); [apply IH|].
        intros H. injection H as <- <-. left. by eexists.
      * intros H. injection H as <- <-. by right; left.
Qed.

(** Runs that end on a reply that does not decode. *)

Lemma decode_failure t m :
  json_loads (Api.clean_json_response t) = inl m ->
  Api.parse_response json_loads t = inl (JSONDecodeError m).
Proof. intros H. unfold Api.parse_response, loads. by rewrite H. Qed.

Lemma api_loop_ends_undecodable (texts : nat -> pystr) m (N : nat) :
  Z.of_nat N = max_retries ->
  (forall i, (i < N)%nat -> answers client i (texts i)) ->
  (forall i, (i < N - 1)%nat -> rejected json_loads (texts i)) ->
  json_loads (Api.clean_json_response (texts (N - 1)%nat)) = inl m ->
  forall (len a : nat),
    (a + S len = N)%nat ->
    api_loop (map Z.of_nat (seq a (S len))) (texts a) (S a)
    = (inl (ValueError
              (decode_exhausted_message max_retries
                 (slice_to (texts (N - 1)%nat) 200) m)), N).
Proof.
  intros HN Hans Hrej Hlast. induction len as [|len IH]; intros a Ha.
  - replace (N - 1)%nat with a in * by lia.
    cbn [seq map Api.attempts]. rewrite (decode_failure _ _ Hlast).
    destruct (Z.ltb_spec (Z.of_nat a) (max_retries - 1)); [lia|].
    unfold raise, decode_exhausted_message. do 2 f_equal. lia.
  - rewrite attempts_step.
    destruct (api_turn_retry json_loads client user_message max_retries
                (Z.of_nat a) (map Z.of_nat (seq (S a) (S len))) (texts a)
                (S a)) as [chat ->]; [apply Hrej; lia|lia|].
    rewrite (Hans (S a) ltac:(lia) chat). apply IH. lia.
Qed.

Lemma gui_loop_ends_undecodable (texts : nat -> pystr) m (N : nat) :
  Z.of_nat N = max_retries ->
  (forall i, (i < N)%nat -> answers client i (texts i)) ->
  (forall i, (i < N - 1)%nat -> rejected json_loads (texts i)) ->
  json_loads (Api.clean_json_response (texts (N - 1)%nat)) = inl m ->
  forall (len a : nat) chat rt,
    (a + S len = N)%nat ->
    gui_loop (map Z.of_nat (seq a (S len))) chat rt a
    = (inl (ValueError
              (decode_exhausted_message max_retries
                 (Gui.response_excerpt (Some (texts (N - 1)%nat))) m)), N).
Proof.
  intros HN Hans Hrej Hlast. induction len as [|len IH]; intros a chat rt Ha.
  - replace (N - 1)%nat with a in * by lia.
    cbn [seq map Gui.attempts]. unfold bind, Gui.chat_reply.
    rewrite (Hans a ltac:(lia) chat). cbn [bind_exn].
    rewrite gui_parse_eq, (decode_failure _ _ Hlast).
    destruct (Z.ltb_spec (Z.of_nat a) (max_retries - 1)); [lia|].
    unfold raise, decode_exhausted_message. do 2 f_equal. lia.
  - rewrite attempts_step.
    destruct (gui_turn_retry json_loads client user_message max_retries
                (Z.of_nat a) (map Z.of_nat (seq (S a) (S len))) chat rt
                (texts a) a) as [chat' ->];
      [apply Hans; lia|apply Hrej; lia|lia|].
    apply IH. lia.
Qed.

(** Runs on which every call raises [JSONDecodeError]. *)

Lemma gui_loop_garbled (msgs : nat -> pystr) (N : nat) :
  Z.of_nat N = max_retries ->
  (forall i, fails client i (JSONDecodeError (msgs i))) ->
  forall (len a : nat) chat,
    (a + S len = N)%nat ->
    gui_loop (map Z.of_nat (seq a (S len))) chat None a
    = (inl (ValueError
              (decode_exhausted_message max_retries (py "Нет ответа")
                 (msgs (N - 1)%nat))), N).
Proof.
  intros HN Hf. induction len as [|len IH]; intros a chat Ha.
  - replace (N - 1)%nat with a in * by lia.
    cbn [seq map Gui.attempts]. unfold bind, Gui.chat_reply.
    rewrite (Hf a chat). cbn [bind_exn].
    destruct (Z.ltb_spec (Z.of_nat a) (max_retries - 1)); [lia|].
    unfold raise, decode_exhausted_message. do 2 f_equal. lia.
  - rewrite attempts_step. cbn [Gui.attempts]. unfold bind, Gui.chat_reply.
    rewrite (Hf a chat). cbn [bind_exn].
    destruct (Z.ltb_spec (Z.of_nat a) (max_retries - 1)); [|lia].
    apply IH. lia.
Qed.

End Runs.

(** Two providers that agree on the chats of the protocol. *)

Section TwoProviders.

Variable json_loads : Decoder.
Variables c1 c2 : Provider.
Variable user_message : pystr.
Variable max_retries : Z.
Hypothesis agree : same_on_protocol_chats user_message c1 c2.

Lemma agree_retry i sp :
  (1 <= i)%nat -> sp ∈ retry_prompts ->
  c1 i (conversation sp user_message) = c2 i (conversation sp user_message).
Proof. destruct agree as [_ H]. apply H. Qed.

Lemma api_loop_agree todo : forall t calls,
  (1 <= calls)%nat ->
  Api.attempts json_loads c1 user_message max_retries todo t calls
  = Api.attempts json_loads c2 user_message max_retries todo t calls.
Proof.
  induction todo as [|attempt todo IH]; intros t calls Hc; [done|].
  cbn [Api.attempts].
  assert (Hcall : forall sp, sp ∈ retry_prompts ->
    bind (Api.chat_content c1 (conversation sp user_message))
      (fun t' => Api.attempts json_loads c1 user_message max_retries todo t')
      calls
    = bind (Api.chat_content c2 (conversation sp user_message))
        (fun t' => Api.attempts json_loads c2 user_message max_retries todo t')
        calls).
  { intros sp Hsp. unfold bind, Api.chat_content.
    rewrite (agree_retry calls sp Hc Hsp).
    destruct (c2 calls _); [done|]. apply IH. lia. }
  destruct (Api.parse_response json_loads t) as [[m|m| |k|m|c m]|v0];
    try reflexivity;
    (destruct (attempt <? max_retries - 1); [|reflexivity]);
    apply Hcall; unfold retry_prompts.
  - apply elem_of_cons. by left.
  - apply elem_of_cons. right. apply elem_of_cons. by left.
Qed.

Lemma gui_loop_agree todo : forall chat rt calls,
  (calls = 0%nat /\ chat = conversation SYSTEM_PROMPT user_message)
  \/ ((1 <= calls)%nat
      /\ exists sp, sp ∈ retry_prompts /\ chat = conversation sp user_message) ->
  Gui.attempts json_loads c1 user_message max_retries todo chat rt calls
  = Gui.attempts json_loads c2 user_message max_retries todo chat rt calls.
Proof.
  induction todo as [|attempt todo IH]; intros chat rt calls Hinv; [done|].
  cbn [Gui.attempts]. unfold bind, Gui.chat_reply.
  assert (Hsame : c1 calls chat = c2 calls chat).
  { destruct Hinv as [[-> ->]|[Hc (sp & Hsp & ->)]].
    - destruct agree as [H0 _]. exact H0.
    - by apply agree_retry. }
  rewrite Hsame.
  destruct (bind_exn (c2 calls chat) (Gui.parse_response json_loads))
    as [[m|m| |k|m|c m]|v0]; try reflexivity.
  - destruct (attempt <? max_retries - 1); [|reflexivity].
    apply IH. right. split; [lia|]. eexists. split; [|reflexivity].
    unfold retry_prompts. apply elem_of_cons. by left.
  - destruct (str_contains _ m && _); [|reflexivity].
    apply IH. right. split; [lia|]. eexists. split; [|reflexivity].
    unfold retry_prompts. apply elem_of_cons. right.
    apply elem_of_cons. by left.
Qed.

End TwoProviders.

Lemma send_returns (json_loads : Decoder)
    (client : Provider) (user_message : pystr) (max_retries : Z)
    (v : pyval) (calls : nat) :
  (Api.send_json_request json_loads client user_message max_retries 0%nat
   = (inr v, calls)
   \/ Gui.send_json_request json_loads client user_message max_retries 0%nat
      = (inr v, calls)) ->
  (1 <= calls)%nat
  /\ exists chat t d,
       client (calls - 1)%nat chat = inr t
       /\ json_loads (Api.clean_json_response t) = inr v
       /\ v = PDict d /\ meets_schema d.
Proof.
  intros H.
  assert (Hlast : (1 <= calls)%nat
    /\ exists chat t, client (calls - 1)%nat chat = inr t
                      /\ accepted json_loads t v).
  { destruct H as [H|H].
    - rewrite api_send_unfold in H.
      destruct (client 0%nat _) as [e|t0] eqn:E; [done|].
      eapply api_loop_returns; [| |exact H]; [lia|]. eauto.
    - eapply gui_loop_returns. exact H. }
  destruct Hlast as [Hc (chat & t & Ht & Hacc)]. split; [done|].
  destruct (accepted_valid json_loads t v Hacc) as [Hd Hv].
  destruct (validate_true_dict v Hv) as (d & -> & Hd').
  by exists chat, t, d.
Qed.

(** X5. The value returned. In both files, when [send_json_request] returns a
    value, at least one call was made, the value is what the last reply
    decodes to after cleaning, and it is a mapping that meets the schema. *)
Theorem returned_value_is_valid_last_reply (json_loads : Decoder)
    (client : Provider) (user_message : pystr) (max_retries : Z)
    (v : pyval) (calls : nat) :
  (Api.send_json_request json_loads client user_message max_retries 0%nat
   = (inr v, calls)
   \/ Gui.send_json_request json_loads client user_message max_retries 0%nat
      = (inr v, calls)) ->
  (1 <= calls)%nat
  /\ exists chat t d,
       client (calls - 1)%nat chat = inr t
       /\ json_loads (Api.clean_json_response t) = inr v
       /\ v = PDict d /\ meets_schema d.
Proof. apply send_returns. Qed.

Lemma returned_value_is_valid_last_reply_witness :
  exists chat t d,
    scripted [wrong_sentiment] valid_object (2 - 1)%nat chat = inr t
    /\ Fragment.json_loads (Api.clean_json_response t) = inr valid_value
    /\ valid_value = PDict d /\ meets_schema d.
Proof.
  apply (returned_value_is_valid_last_reply Fragment.json_loads
           (scripted [wrong_sentiment] valid_object) (py "hi") 3
           valid_value 2%nat).
  left. vm_compute. reflexivity.
Defined.

Lemma send_calls (json_loads : Decoder) (client : Provider)
    (user_message : pystr) (max_retries : Z) :
  (1 <= (Api.send_json_request json_loads client user_message
           max_retries 0%nat).2 <= Z.to_nat (Z.max 1 max_retries))%nat
  /\ ((Gui.send_json_request json_loads client user_message
         max_retries 0%nat).2 <= Z.to_nat (Z.max 0 max_retries))%nat.
Proof.
  split.
  - rewrite api_send_unfold. destruct (client 0%nat _) as [e|t]; [simpl; lia|].
    rewrite range_seq.
    pose proof (api_loop_calls json_loads client user_message max_retries
                  (Z.to_nat max_retries) 0%nat t 1%nat) as H.
    destruct (Z.le_gt_cases max_retries 0) as [Hle|Hgt].
    + replace (Z.to_nat max_retries) with 0%nat in * by lia. simpl. lia.
    + specialize (H ltac:(lia)). lia.
  - unfold Gui.send_json_request. rewrite range_seq.
    pose proof (gui_loop_calls json_loads client user_message max_retries
                  (map Z.of_nat (seq 0 (Z.to_nat max_retries)))
                  (conversation SYSTEM_PROMPT user_message) None 0%nat) as H.
    rewrite length_map, length_seq in H. lia.
Qed.

(** X6. The number of calls. Whatever the provider and the decoder do, the
    variant of [gigachat_json_api.py] makes at least one call and at most
    [max(1, max_retries)]; the variant of [chatbot_gui.py] makes at most
    [max(0, max_retries)]. *)
Theorem calls_within_budget (json_loads : Decoder) (client : Provider)
    (user_message : pystr) (max_retries : Z) :
  (1 <= (Api.send_json_request json_loads client user_message
           max_retries 0%nat).2 <= Z.to_nat (Z.max 1 max_retries))%nat
  /\ ((Gui.send_json_request json_loads client user_message
         max_retries 0%nat).2 <= Z.to_nat (Z.max 0 max_retries))%nat.
Proof. apply send_calls. Qed.

Lemma send_raises (json_loads : Decoder) (client : Provider)
    (user_message : pystr) (max_retries : Z) (e : exn) (calls : nat) :
  (Api.send_json_request json_loads client user_message max_retries 0%nat
   = (inl e, calls) ->
   (exists m, e = ValueError m) \/ e = TypeError
   \/ ((1 <= calls)%nat /\ exists chat, client (calls - 1)%nat chat = inl e))
  /\ (Gui.send_json_request json_loads client user_message max_retries 0%nat
      = (inl e, calls) ->
      (forall m, e <> JSONDecodeError m)
      /\ ((exists m, e = ValueError m) \/ e = TypeError
          \/ ((1 <= calls)%nat
              /\ exists chat, client (calls - 1)%nat chat = inl e))).
Proof.
  split.
  - rewrite api_send_unfold.
    destruct (client 0%nat _) as [e'|t] eqn:E.
    + intros H. injection H as <- <-. right. right. split; [lia|]. eauto.
    + apply api_loop_raises.
  - intros H. apply gui_loop_raises in H.
    destruct H as [[m ->]|[->|(Hne & Hc & Hchat)]].
    + split; [done|]. left. by eexists.
    + split; [done|]. by right; left.
    + split; [done|]. right. right. done.
Qed.



(** X8. A decode error raised by the provider. When the provider call itself
    raises [JSONDecodeError] every time, the variant of
    [gigachat_json_api.py], whose calls are outside the [try], lets the first
    one out after one call; the variant of [chatbot_gui.py], whose call is
    inside the [try], retries until the budget is used up and raises a
    [ValueError] that shows [Нет ответа] in place of a reply. *)
Theorem provider_decode_error (json_loads : Decoder) (client : Provider)
    (user_message : pystr) (max_retries : Z) (msgs : nat -> pystr) :
  1 <= max_retries ->
  (forall i, fails client i (JSONDecodeError (msgs i))) ->
  Api.send_json_request json_loads client user_message max_retries 0%nat
  = (inl (JSONDecodeError (msgs 0%nat)), 1%nat)
  /\ Gui.send_json_request json_loads client user_message max_retries 0%nat
     = (inl (ValueError
               (decode_exhausted_message max_retries (py "Нет ответа")
                  (msgs (Z.to_nat max_retries - 1)%nat))),
        Z.to_nat max_retries).
Proof.
  intros Hn Hf. split.
  - rewrite api_send_unfold. by rewrite (Hf 0%nat _).
  - unfold Gui.send_json_request. rewrite range_seq.
    destruct (Z.to_nat max_retries) as [|len] eqn:E; [lia|].
    rewrite <- E.
    rewrite E at 1.
    apply (gui_loop_garbled json_loads client user_message max_retries
             msgs (Z.to_nat max_retries)); [lia|done|lia].
Qed.

Lemma provider_decode_error_witness :
  Api.send_json_request Fragment.json_loads garbled (py "hi") 3 0%nat
  = (inl (JSONDecodeError (py "Expecting value: line 1 column 1 (char 0)")),
     1%nat)
  /\ Gui.send_json_request Fragment.json_loads garbled (py "hi") 3 0%nat
     = (inl (ValueError
               (decode_exhausted_message 3 (py "Нет ответа")
                  (py "Expecting value: line 1 column 1 (char 0)"))),
        3%nat).
Proof.
  apply (provider_decode_error Fragment.json_loads garbled (py "hi") 3
           (fun _ => py "Expecting value: line 1 column 1 (char 0)")).
  - lia.
  - intros i chat. reflexivity.
Defined.

(** X9. The message of a budget used up on an undecodable reply. When the
    replies before the last are rejected and the last one does not decode,
    both files raise, after [max_retries] calls, a [ValueError] whose message
    names the budget, shows at most the first 200 characters of the last
    reply and ends with the decoder's message; for an empty last reply the
    variant of [chatbot_gui.py] shows [Нет ответа] instead. *)
Theorem undecodable_last_reply_message (json_loads : Decoder)
    (client : Provider) (user_message : pystr) (max_retries : Z)
    (texts : nat -> pystr) (m : pystr) :
  1 <= max_retries ->
  (forall i, (i < Z.to_nat max_retries)%nat -> answers client i (texts i)) ->
  (forall i, (i < Z.to_nat max_retries - 1)%nat ->
             rejected json_loads (texts i)) ->
  json_loads (Api.clean_json_response (texts (Z.to_nat max_retries - 1)%nat))
  = inl m ->
  Api.send_json_request json_loads client user_message max_retries 0%nat
  = (inl (ValueError
            (decode_exhausted_message max_retries
               (slice_to (texts (Z.to_nat max_retries - 1)%nat) 200) m)),
     Z.to_nat max_retries)
  /\ Gui.send_json_request json_loads client user_message max_retries 0%nat
     = (inl (ValueError
               (decode_exhausted_message max_retries
                  match texts (Z.to_nat max_retries - 1)%nat with
                  | [] => py "Нет ответа"
                  | _ :: _ =>
                      slice_to (texts (Z.to_nat max_retries - 1)%nat) 200
                  end m)),
        Z.to_nat max_retries)
  /\ (length (slice_to (texts (Z.to_nat max_retries - 1)%nat) 200)
      <= 200)%nat.
Proof.
  intros Hn Hans Hrej Hlast.
  destruct (Z.to_nat max_retries) as [|len] eqn:E; [lia|].
  rewrite <- E in *. split; [|split].
  - rewrite api_send_unfold, (Hans 0%nat ltac:(lia) _), range_seq.
    rewrite E at 1.
    apply (api_loop_ends_undecodable json_loads client user_message
             max_retries texts m (Z.to_nat max_retries)); try done; lia.
  - unfold Gui.send_json_request. rewrite range_seq. rewrite E at 1.
    pose proof (gui_loop_ends_undecodable json_loads client user_message
                  max_retries texts m (Z.to_nat max_retries)
                  ltac:(lia) Hans Hrej Hlast len 0%nat
                  (conversation SYSTEM_PROMPT user_message) None
                  ltac:(lia)) as H.
    rewrite H. unfold Gui.response_excerpt.
    by destruct (texts (Z.to_nat max_retries - 1)%nat).
  - unfold slice_to. rewrite length_take. lia.
Qed.

Lemma undecodable_last_reply_message_witness :
  Api.send_json_request Fragment.json_loads
    (scripted [wrong_sentiment] (py "no json here")) (py "hi") 2 0%nat
  = (inl (ValueError
            (decode_exhausted_message 2 (py "no json here")
               (py "Expecting value"))), 2%nat)
  /\ Gui.send_json_request Fragment.json_loads
       (scripted [wrong_sentiment] (py "no json here")) (py "hi") 2 0%nat
     = (inl (ValueError
               (decode_exhausted_message 2 (py "no json here")
                  (py "Expecting value"))), 2%nat)
  /\ (length (py "no json here") <= 200)%nat.
Proof.
  apply (undecodable_last_reply_message Fragment.json_loads
           (scripted [wrong_sentiment] (py "no json here")) (py "hi") 2
           (fun i => nth i [wrong_sentiment] (py "no json here"))
           (py "Expecting value")).
  - lia.
  - intros i Hi chat. reflexivity.
  - intros i Hi. right. assert (i = 0%nat) as -> by (simpl in Hi; lia).
    vm_compute. reflexivity.
  - vm_compute. reflexivity.
Defined.

(** X10. The chats that are sent. The outcome of [send_json_request] depends
    on the provider only through its answers to the chats of the protocol:
    [SYSTEM_PROMPT] with the user message on the first call, one of the two
    retry prompts with the same, unchanged user message on a later call. Two
    providers that agree on those chats give the same outcome and the same
    number of calls, in both files. *)
Theorem outcome_depends_on_protocol_chats (json_loads : Decoder)
    (c1 c2 : Provider) (user_message : pystr) (max_retries : Z) :
  same_on_protocol_chats user_message c1 c2 ->
  Api.send_json_request json_loads c1 user_message max_retries 0%nat
  = Api.send_json_request json_loads c2 user_message max_retries 0%nat
  /\ Gui.send_json_request json_loads c1 user_message max_retries 0%nat
     = Gui.send_json_request json_loads c2 user_message max_retries 0%nat.
Proof.
  intros Hagree. split.
  - rewrite !api_send_unfold. pose proof Hagree as [H0 Hr]. rewrite H0.
    destruct (c2 0%nat _); [reflexivity|].
    apply api_loop_agree; [exact Hagree|lia].
  - apply gui_loop_agree; [done|]. by left.
Qed.

Lemma outcome_depends_on_protocol_chats_witness :
  Api.send_json_request Fragment.json_loads
    (scripted [wrong_sentiment] valid_object) (py "hi") 3 0%nat
  = Api.send_json_request Fragment.json_loads
      (only_for (py "hi") (scripted [wrong_sentiment] valid_object))
      (py "hi") 3 0%nat
  /\ Gui.send_json_request Fragment.json_loads
       (scripted [wrong_sentiment] valid_object) (py "hi") 3 0%nat
     = Gui.send_json_request Fragment.json_loads
         (only_for (py "hi") (scripted [wrong_sentiment] valid_object))
         (py "hi") 3 0%nat.
Proof.
  apply (outcome_depends_on_protocol_chats Fragment.json_loads
           (scripted [wrong_sentiment] valid_object)
           (only_for (py "hi") (scripted [wrong_sentiment] valid_object))
           (py "hi") 3).
  split.
  - reflexivity.
  - intros i sp Hi Hsp. reflexivity.
Defined.

(** ** The client and the whole request *)

Section ClientFacts.

Variable env : gmap pystr pystr.
Variable connect : Connector.

Lemma get_client_with_key k :
  k <> [] ->
  py_or (env !! py "GIGACHAT_AUTH_DATA") (env !! py "GIGACHAT_CREDENTIALS")
  = Some k ->
  Client.get_gigachat_client env connect =
  match connect k with
  | inr c => inr c
  | inl cause =>
      inl (ConnectionError
             (py "Не удалось подключиться к GigaChat API: " ++ cause))
  end.
Proof.
  intros Hk H. unfold Client.get_gigachat_client. rewrite H.
  by destruct k.
Qed.

Lemma get_client_without_key :
  truthy_str (env !! py "GIGACHAT_AUTH_DATA") = false ->
  truthy_str (env !! py "GIGACHAT_CREDENTIALS") = false ->
  Client.get_gigachat_client env connect
  = inl (ValueError Client.missing_key_message).
Proof.
  intros Ha Hc. unfold Client.get_gigachat_client, py_or. rewrite Ha.
  by destruct (env !! py "GIGACHAT_CREDENTIALS") as [[|c r]|].
Qed.

End ClientFacts.

(** X11. The key of the client. [get_gigachat_client] takes
    [GIGACHAT_AUTH_DATA] when it is set and not empty, whatever
    [GIGACHAT_CREDENTIALS] holds; it falls back to [GIGACHAT_CREDENTIALS]
    when [GIGACHAT_AUTH_DATA] is unset or empty; with neither it raises
    [ValueError] without trying to connect. A failure to connect with the
    key taken is raised as [ConnectionError] with the cause in its
    message. *)
Theorem client_key_choice (env : gmap pystr pystr) (connect : Connector) :
  (forall k, k <> [] -> env !! py "GIGACHAT_AUTH_DATA" = Some k ->
     Client.get_gigachat_client env connect =
     match connect k with
     | inr c => inr c
     | inl cause =>
         inl (ConnectionError
                (py "Не удалось подключиться к GigaChat API: " ++ cause))
     end)
  /\ (forall k, k <> [] ->
        truthy_str (env !! py "GIGACHAT_AUTH_DATA") = false ->
        env !! py "GIGACHAT_CREDENTIALS" = Some k ->
        Client.get_gigachat_client env connect =
        match connect k with
        | inr c => inr c
        | inl cause =>
            inl (ConnectionError
                   (py "Не удалось подключиться к GigaChat API: " ++ cause))
        end)
  /\ (truthy_str (env !! py "GIGACHAT_AUTH_DATA") = false ->
      truthy_str (env !! py "GIGACHAT_CREDENTIALS") = false ->
      Client.get_gigachat_client env connect
      = inl (ValueError Client.missing_key_message)).
Proof.
  split; [|split].
  - intros k Hk H. apply get_client_with_key; [done|].
    unfold py_or. rewrite H. by destruct k.
  - intros k Hk Ha H. apply get_client_with_key; [done|].
    unfold py_or. by rewrite Ha.
  - apply get_client_without_key.
Qed.

Lemma client_key_choice_witness :
  Client.get_gigachat_client
    (<[py "GIGACHAT_AUTH_DATA" := py "first"]>
       (env_of (py "GIGACHAT_CREDENTIALS") (py "second")))
    (connect_with (py "second") garbled)
  = inl (ConnectionError
           (py "Не удалось подключиться к GigaChat API: 401 Unauthorized"))
  /\ Client.get_gigachat_client
       (<[py "GIGACHAT_AUTH_DATA" := []]>
          (env_of (py "GIGACHAT_CREDENTIALS") (py "second")))
       (connect_with (py "second") garbled)
     = inr garbled
  /\ Client.get_gigachat_client
       (env_of (py "GIGACHAT_AUTH_DATA") [])
       (connect_with (py "second") garbled)
     = inl (ValueError Client.missing_key_message).
Proof.
  split; [|split].
  - etrans;
      [apply (proj1 (client_key_choice
                (<[py "GIGACHAT_AUTH_DATA" := py "first"]>
                   (env_of (py "GIGACHAT_CREDENTIALS") (py "second")))
                (connect_with (py "second") garbled)) (py "first"));
       [intros H; vm_compute in H; discriminate|reflexivity]
      |vm_compute; reflexivity].
  - etrans;
      [apply (proj1 (proj2 (client_key_choice
                (<[py "GIGACHAT_AUTH_DATA" := []]>
                   (env_of (py "GIGACHAT_CREDENTIALS") (py "second")))
                (connect_with (py "second") garbled))) (py "second"));
       [intros H; vm_compute in H; discriminate|reflexivity|reflexivity]
      |vm_compute; reflexivity].
  - apply (proj2 (proj2 (client_key_choice
                (env_of (py "GIGACHAT_AUTH_DATA") [])
                (connect_with (py "second") garbled)))); reflexivity.
Defined.

(** X12. The client is closed. Whatever the environment, the connector, the
    provider and the decoder do, the whole [send_json_request] either gets no
    client, and then makes no provider call, closes nothing and raises the
    [ValueError] of the missing key or a [ConnectionError]; or it gets one,
    makes between one and [max(1, max_retries)] calls and calls [__exit__]
    exactly once, on success and on every error alike. *)
Theorem request_closes_client (json_loads : Decoder)
    (env : gmap pystr pystr) (connect : Connector)
    (user_message : pystr) (max_retries : Z) :
  ((Client.send_json_request json_loads env connect user_message
      max_retries).2 = (0%nat, 0%nat)
   /\ ((Client.send_json_request json_loads env connect user_message
          max_retries).1 = inl (ValueError Client.missing_key_message)
       \/ exists cause,
            (Client.send_json_request json_loads env connect user_message
               max_retries).1
            = inl (ConnectionError
                     (py "Не удалось подключиться к GigaChat API: "
                      ++ cause))))
  \/ ((Client.send_json_request json_loads env connect user_message
         max_retries).2.2 = 1%nat
      /\ (1 <= (Client.send_json_request json_loads env connect user_message
                  max_retries).2.1
          <= Z.to_nat (Z.max 1 max_retries))%nat
      /\ exists client,
           Client.get_gigachat_client env connect = inr client
           /\ (Client.send_json_request json_loads env connect user_message
                 max_retries).1
              = (Api.send_json_request json_loads client user_message
                   max_retries 0%nat).1).
Proof.
  unfold Client.send_json_request.
  destruct (Client.get_gigachat_client env connect) as [e|client] eqn:E.
  - left. split; [done|]. simpl. revert E.
    unfold Client.get_gigachat_client.
    destruct (py_or _ _) as [[|c r]|]; try (intros; simplify_eq; by left).
    destruct (connect (c :: r)) as [cause|cl]; [|done].
    intros; simplify_eq. right. by exists cause.
  - right.
    pose proof (send_calls json_loads client user_message max_retries)
      as [Hc _].
    destruct (Api.send_json_request json_loads client user_message
                max_retries 0%nat) as [r calls] eqn:Hs.
    simpl in *. split; [done|]. split; [done|]. exists client.
    split; [done|]. by rewrite Hs.
Qed.

(** ** [main] *)

Section MainFacts.

Variable json_loads : Decoder.
Variable env : gmap pystr pystr.
Variable connect : Connector.
Variable json_dumps : pyval -> pystr.
Variable py_str : pyval -> pystr.
Variable interp : exn -> pystr.

Lemma numbered_strings :
  (forall s, py_str (PStr s) = s) ->
  forall (points : list pystr) (i : Z),
    Client.numbered py_str i (PStr <$> points)
    = imap (fun k p =>
              Print (py "  " ++ str_of_int (i + Z.of_nat k) ++ py ". " ++ p))
        points.
Proof.
  intros Hs. induction points as [|p points IH]; intros i; [done|].
  cbn [fmap list_fmap Client.numbered]. rewrite imap_cons.
  rewrite Hs, Z.add_0_r. f_equal.
  change (list_fmap pystr pyval PStr points) with (PStr <$> points).
  rewrite IH. apply imap_ext. intros k p' _. unfold compose.
  by replace (i + Z.of_nat (S k)) with (i + 1 + Z.of_nat k) by lia.
Qed.

Lemma strings_of (l : list pyval) :
  Forall is_string l -> exists points : list pystr, l = PStr <$> points.
Proof.
  induction 1 as [|v l [s ->] _ [points ->]]; [by exists []|].
  by exists (s :: points).
Qed.

Lemma main_unfold_failure e calls :
  Client.send_json_request json_loads env connect Client.test_question 3
  = (inl e, calls) ->
  Client.main json_loads env connect json_dumps py_str interp
  = [Print Client.rule;
     Print (py "GigaChat API - Запрос с гарантированным JSON-форматом");
     Print Client.rule;
     Print ([10%N] ++ py "Вопрос: " ++ Client.test_question ++ [10%N]);
     Print (py "Отправка запроса к GigaChat API...")]
    ++ Client.report interp e.
Proof. intros H. unfold Client.main. by rewrite H. Qed.

End MainFacts.

(** X13. What [main] prints for a result. When the request returns, [main]
    prints its five opening lines, the result as [json.dumps] gives it
    between rules, the answer, one numbered line for each key point, in
    order and numbered from 1, and the sentiment; no error line is
    printed. *)
Theorem main_prints_result (json_loads : Decoder) (env : gmap pystr pystr)
    (connect : Connector) (json_dumps py_str : pyval -> pystr)
    (interp : exn -> pystr) (client : Provider) (v : pyval) (calls : nat) :
  (forall s, py_str (PStr s) = s) ->
  Client.get_gigachat_client env connect = inr client ->
  Api.send_json_request json_loads client Client.test_question 3 0%nat
  = (inr v, calls) ->
  exists (d : gmap pystr pyval) (answer : pystr) (points : list pystr)
         (sentiment : pystr),
    v = PDict d
    /\ d !! s_answer = Some (PStr answer)
    /\ d !! s_key_points = Some (PList (PStr <$> points))
    /\ d !! s_sentiment = Some (PStr sentiment)
    /\ Client.main json_loads env connect json_dumps py_str interp
       = [Print Client.rule;
          Print (py "GigaChat API - Запрос с гарантированным JSON-форматом");
          Print Client.rule;
          Print ([10%N] ++ py "Вопрос: " ++ Client.test_question ++ [10%N]);
          Print (py "Отправка запроса к GigaChat API...");
          Print ([10%N] ++ Client.rule); Print (py "РЕЗУЛЬТАТ:");
          Print Client.rule; Print (json_dumps v);
          Print ([10%N] ++ Client.rule); Print (py "РАСШИФРОВКА:");
          Print Client.rule;
          Print ([10%N] ++ py "Ответ:" ++ [10%N] ++ answer ++ [10%N]);
          Print (py "Ключевые моменты:")]
         ++ imap (fun k p =>
                    Print (py "  " ++ str_of_int (1 + Z.of_nat k)
                           ++ py ". " ++ p)) points
         ++ [Print ([10%N] ++ py "Тональность: " ++ sentiment)].
Proof.
  intros Hs Hc Hr.
  destruct (send_returns json_loads client Client.test_question 3 v calls
              (or_introl Hr)) as [_ (chat & t & d & _ & _ & -> & Hd)].
  destruct Hd as (a & kp & s & Ha & Hk & Hstr & Hsent & _).
  destruct (strings_of kp Hstr) as [points ->].
  exists d, a, points, s. repeat (split; [done|]).
  unfold Client.main, Client.send_json_request. rewrite Hc, Hr.
  unfold Client.show, py_getitem. rewrite Ha, Hk, Hsent. cbn [bind_exn py_iter].
  rewrite (numbered_strings py_str Hs), !Hs.
  rewrite <- !app_assoc. reflexivity.
Qed.

Lemma main_prints_result_witness :
  exists (d : gmap pystr pyval) (answer : pystr) (points : list pystr)
         (sentiment : pystr),
    valid_value = PDict d
    /\ d !! s_answer = Some (PStr answer)
    /\ d !! s_key_points = Some (PList (PStr <$> points))
    /\ d !! s_sentiment = Some (PStr sentiment)
    /\ Client.main Fragment.json_loads
         (env_of (py "GIGACHAT_CREDENTIALS") (py "second"))
         (connect_with (py "second") (scripted [] valid_object))
         (fun _ => valid_object) str_of_text (fun _ => [])
       = [Print Client.rule;
          Print (py "GigaChat API - Запрос с гарантированным JSON-форматом");
          Print Client.rule;
          Print ([10%N] ++ py "Вопрос: " ++ Client.test_question ++ [10%N]);
          Print (py "Отправка запроса к GigaChat API...");
          Print ([10%N] ++ Client.rule); Print (py "РЕЗУЛЬТАТ:");
          Print Client.rule; Print valid_object;
          Print ([10%N] ++ Client.rule); Print (py "РАСШИФРОВКА:");
          Print Client.rule;
          Print ([10%N] ++ py "Ответ:" ++ [10%N] ++ answer ++ [10%N]);
          Print (py "Ключевые моменты:")]
         ++ imap (fun k p =>
                    Print (py "  " ++ str_of_int (1 + Z.of_nat k)
                           ++ py ". " ++ p)) points
         ++ [Print ([10%N] ++ py "Тональность: " ++ sentiment)].
Proof.
  apply (main_prints_result Fragment.json_loads
           (env_of (py "GIGACHAT_CREDENTIALS") (py "second"))
           (connect_with (py "second") (scripted [] valid_object))
           (fun _ => valid_object) str_of_text (fun _ => [])
           (scripted [] valid_object) valid_value 1%nat).
  - intros s. reflexivity.
  - reflexivity.
  - vm_compute. reflexivity.
Defined.

(** X14. How [main] labels what goes wrong before and inside the request. A
    missing key is a [ValueError], so [main] prints it under the label of a
    validation error; a failure to connect is printed under the label of a
    connection error; the [TypeError] of the validator is printed as an
    unexpected error, followed by the traceback. In each case the five
    opening lines come first and nothing else is printed. *)
Theorem main_labels_failures (json_loads : Decoder)
    (env : gmap pystr pystr) (connect : Connector)
    (json_dumps py_str : pyval -> pystr) (interp : exn -> pystr) :
  (truthy_str (env !! py "GIGACHAT_AUTH_DATA") = false ->
   truthy_str (env !! py "GIGACHAT_CREDENTIALS") = false ->
   Client.main json_loads env connect json_dumps py_str interp
   = [Print Client.rule;
      Print (py "GigaChat API - Запрос с гарантированным JSON-форматом");
      Print Client.rule;
      Print ([10%N] ++ py "Вопрос: " ++ Client.test_question ++ [10%N]);
      Print (py "Отправка запроса к GigaChat API...");
      Print ([10%N] ++ py "❌ Ошибка валидации: "
             ++ Client.missing_key_message)])
  /\ (forall k cause,
        k <> [] ->
        py_or (env !! py "GIGACHAT_AUTH_DATA")
          (env !! py "GIGACHAT_CREDENTIALS") = Some k ->
        connect k = inl cause ->
        Client.main json_loads env connect json_dumps py_str interp
        = [Print Client.rule;
           Print (py "GigaChat API - Запрос с гарантированным JSON-форматом");
           Print Client.rule;
           Print ([10%N] ++ py "Вопрос: " ++ Client.test_question ++ [10%N]);
           Print (py "Отправка запроса к GigaChat API...");
           Print ([10%N] ++ py "❌ Ошибка подключения: "
                  ++ py "Не удалось подключиться к GigaChat API: "
                  ++ cause)])
  /\ (forall client calls,
        Client.get_gigachat_client env connect = inr client ->
        Api.send_json_request json_loads client Client.test_question 3 0%nat
        = (inl TypeError, calls) ->
        Client.main json_loads env connect json_dumps py_str interp
        = [Print Client.rule;
           Print (py "GigaChat API - Запрос с гарантированным JSON-форматом");
           Print Client.rule;
           Print ([10%N] ++ py "Вопрос: " ++ Client.test_question ++ [10%N]);
           Print (py "Отправка запроса к GigaChat API...");
           Print ([10%N] ++ py "❌ Неожиданная ошибка: "
                  ++ interp TypeError);
           PrintExc]).
Proof.
  split; [|split].
  - intros Ha Hc.
    rewrite (main_unfold_failure json_loads env connect json_dumps py_str
               interp (ValueError Client.missing_key_message)
               (0%nat, 0%nat)); [done|].
    unfold Client.send_json_request.
    by rewrite (get_client_without_key env connect Ha Hc).
  - intros k cause Hk Hkey Hconn.
    rewrite (main_unfold_failure json_loads env connect json_dumps py_str
               interp
               (ConnectionError
                  (py "Не удалось подключиться к GigaChat API: " ++ cause))
               (0%nat, 0%nat)); [done|].
    unfold Client.send_json_request.
    by rewrite (get_client_with_key env connect k Hk Hkey), Hconn.
  - intros client calls Hc Hr.
    rewrite (main_unfold_failure json_loads env connect json_dumps py_str
               interp TypeError (calls, 1%nat)); [done|].
    unfold Client.send_json_request. by rewrite Hc, Hr.
Qed.

Lemma main_labels_failures_witness :
  Client.main Fragment.json_loads ∅ (connect_with (py "second") garbled)
    (fun _ => []) str_of_text (fun _ => py "argument of type 'NoneType' is not iterable")
  = [Print Client.rule;
     Print (py "GigaChat API - Запрос с гарантированным JSON-форматом");
     Print Client.rule;
     Print ([10%N] ++ py "Вопрос: " ++ Client.test_question ++ [10%N]);
     Print (py "Отправка запроса к GigaChat API...");
     Print ([10%N] ++ py "❌ Ошибка валидации: "
            ++ Client.missing_key_message)]
  /\ Client.main Fragment.json_loads
       (env_of (py "GIGACHAT_AUTH_DATA") (py "first"))
       (connect_with (py "second") garbled)
       (fun _ => []) str_of_text
       (fun _ => py "argument of type 'NoneType' is not iterable")
     = [Print Client.rule;
        Print (py "GigaChat API - Запрос с гарантированным JSON-форматом");
        Print Client.rule;
        Print ([10%N] ++ py "Вопрос: " ++ Client.test_question ++ [10%N]);
        Print (py "Отправка запроса к GigaChat API...");
        Print ([10%N] ++ py "❌ Ошибка подключения: "
               ++ py "Не удалось подключиться к GigaChat API: "
               ++ py "401 Unauthorized")]
  /\ Client.main Fragment.json_loads
       (env_of (py "GIGACHAT_AUTH_DATA") (py "second"))
       (connect_with (py "second") (scripted [] (py "null")))
       (fun _ => []) str_of_text
       (fun _ => py "argument of type 'NoneType' is not iterable")
     = [Print Client.rule;
        Print (py "GigaChat API - Запрос с гарантированным JSON-форматом");
        Print Client.rule;
        Print ([10%N] ++ py "Вопрос: " ++ Client.test_question ++ [10%N]);
        Print (py "Отправка запроса к GigaChat API...");
        Print ([10%N] ++ py "❌ Неожиданная ошибка: "
               ++ py "argument of type 'NoneType' is not iterable");
        PrintExc].
Proof.
  split; [|split].
  - apply (proj1 (main_labels_failures Fragment.json_loads ∅
                    (connect_with (py "second") garbled) (fun _ => [])
                    str_of_text
                    (fun _ => py "argument of type 'NoneType' is not iterable")));
      reflexivity.
  - apply (proj1 (proj2 (main_labels_failures Fragment.json_loads
                    (env_of (py "GIGACHAT_AUTH_DATA") (py "first"))
                    (connect_with (py "second") garbled) (fun _ => [])
                    str_of_text
                    (fun _ => py "argument of type 'NoneType' is not iterable")))
             (py "first") (py "401 Unauthorized"));
      [intros H; vm_compute in H; discriminate|reflexivity|reflexivity].
  - apply (proj2 (proj2 (main_labels_failures Fragment.json_loads
                    (env_of (py "GIGACHAT_AUTH_DATA") (py "second"))
                    (connect_with (py "second") (scripted [] (py "null")))
                    (fun _ => []) str_of_text
                    (fun _ => py "argument of type 'NoneType' is not iterable")))
             (scripted [] (py "null")) 1%nat);
      [reflexivity|vm_compute; reflexivity].
Defined.

(** ** The window *)

Section WindowFacts.

Import ChatBotGUI.

Variable json_loads : Decoder.
Variable py_str : pyval -> pystr.
Variable interp : exn -> pystr.

Lemma lstrip_of_blank s : blank s -> lstrip s = [].
Proof.
  unfold blank. induction s as [|c s IH]; simpl; [done|].
  intros H. apply andb_true_iff in H as [-> H]. by apply IH.
Qed.

Lemma strip_of_blank s : blank s -> strip s = [].
Proof. intros H. unfold strip. by rewrite (lstrip_of_blank s H). Qed.

Lemma lstrip_nil_blank s : lstrip s = [] -> blank s.
Proof.
  unfold blank. induction s as [|c s IH]; simpl; [done|].
  destruct (isspace c); [exact IH|done].
Qed.

Lemma blank_app s1 s2 : blank (s1 ++ s2) <-> blank s1 /\ blank s2.
Proof. unfold blank. by rewrite forallb_app, andb_true_iff. Qed.

Lemma strip_nil_blank s : strip s = [] -> blank s.
Proof.
  unfold strip, rstrip. intros H.
  assert (Hr : lstrip (reverse (lstrip s)) = []).
  { apply (inj reverse). by rewrite H. }
  apply lstrip_nil_blank, blank_reverse in Hr.
  rewrite reverse_involutive in Hr.
  assert (Hw : exists w, blank w /\ s = w ++ lstrip s).
  { clear. induction s as [|c s (w & Hw & IH)]; simpl; [by exists []|].
    destruct (isspace c) eqn:E.
    - exists (c :: w). split; [unfold blank in *; simpl; by rewrite E|].
      simpl. by f_equal.
    - by exists []. }
  destruct Hw as (w & Hw & E). rewrite E. apply blank_app. by split.
Qed.

Lemma entry_blank text : strip (text ++ [10%N]) = [] <-> blank text.
Proof.
  split.
  - intros H. apply strip_nil_blank in H. by apply blank_app in H as [H _].
  - intros H. apply strip_of_blank, blank_app. by split.
Qed.

Lemma insert_insert app p1 p2 :
  insert (insert app p1) p2 = insert app (p1 ++ p2).
Proof. unfold insert. simpl. by rewrite app_assoc. Qed.

(** A mapping that meets the schema is rendered without an exception. *)
Lemma add_json_response_ok app time_str d :
  meets_schema d ->
  exists pieces,
    add_json_response py_str app time_str (PDict d)
    = (insert app pieces, None).
Proof.
  intros (a & kp & s & Ha & Hk & _ & Hs & _).
  unfold add_json_response, py_getitem. rewrite Ha, Hk, Hs.
  repeat match goal with |- context [py ?lit] =>
    generalize (py lit); intro end.
  destruct kp as [|p kp];
    cbn [default from_option id py_truthy py_iter sentiment_ru];
    rewrite !insert_insert; eexists; reflexivity.
Qed.

Lemma sentiment_ru_label s :
  s ∈ [s_neutral; s_positive; s_negative] ->
  sentiment_ru (PStr s) = inr (PStr (russian s)).
Proof.
  intros Hin. unfold sentiment_ru, russian.
  apply elem_of_cons in Hin as [->|Hin]; [vm_compute; reflexivity|].
  apply elem_of_cons in Hin as [->|Hin]; [vm_compute; reflexivity|].
  apply list_elem_of_singleton in Hin as ->. vm_compute. reflexivity.
Qed.

Lemma bullets_of_strings (bullet nl : pystr) (tag : option Tag) :
  (forall x, py_str (PStr x) = x) ->
  forall l : list pystr,
    map (fun point : pyval => (bullet ++ py_str point ++ nl, tag))
      (PStr <$> l)
    = map (fun p0 : pystr => (bullet ++ p0 ++ nl, tag)) l.
Proof.
  intros Hstr. induction l as [|x l IH]; [reflexivity|].
  cbn [fmap list_fmap map]. rewrite Hstr. f_equal. exact IH.
Qed.

Lemma add_json_response_rendering app time_str d a points s :
  (forall x, py_str (PStr x) = x) ->
  d !! s_answer = Some (PStr a) ->
  d !! s_key_points = Some (PList (PStr <$> points)) ->
  d !! s_sentiment = Some (PStr s) ->
  s ∈ [s_neutral; s_positive; s_negative] ->
  add_json_response py_str app time_str (PDict d)
  = (insert app (rendering time_str a points s), None).
Proof.
  intros Hstr Ha Hk Hs Hin.
  unfold add_json_response, rendering, py_getitem.
  rewrite Ha, Hk, Hs.
  repeat match goal with |- context [py ?lit] =>
    generalize (py lit); intro end.
  cbn [default from_option id py_iter].
  rewrite (sentiment_ru_label s Hin).
  rewrite (bullets_of_strings _ _ _ Hstr), !Hstr.
  destruct points as [|p points]; cbn [fmap list_fmap py_truthy];
    rewrite !insert_insert; reflexivity.
Qed.

(** [send_message] on a window with a client and a text that is not
    blank. *)
Lemma send_message_started app time_str c :
  giga_client app = Some c -> ~ blank (message_entry_text app) ->
  exists app1 m,
    send_message app time_str = (app1, Some m)
    /\ m = strip (message_entry_text app ++ [10%N]) /\ m <> []
    /\ giga_client app1 = Some c
    /\ last_json_response app1 = last_json_response app
    /\ show_json_button app1 = show_json_button app
    /\ send_button app1 = DISABLED /\ message_entry app1 = DISABLED
    /\ message_entry_text app1
       = match message_entry app with
         | NORMAL => []
         | DISABLED => message_entry_text app
         end
    /\ chat_display app `prefix_of` chat_display app1.
Proof.
  intros Hc Hb. unfold send_message. rewrite Hc.
  destruct (strip (message_entry_text app ++ [10%N])) as [|x m] eqn:E.
  - by apply entry_blank in E.
  - eexists _, _. split; [reflexivity|]. simpl.
    repeat (split; [done|]). by eexists.
Qed.

Lemma send_message_idle app time_str :
  giga_client app = None \/ blank (message_entry_text app) ->
  send_message app time_str = (app, None).
Proof.
  intros [H|H]; unfold send_message.
  - by rewrite H.
  - destruct (giga_client app); [|done].
    apply entry_blank in H. by rewrite H.
Qed.

(** What the worker schedules. *)
Lemma get_bot_response_cases app m c :
  giga_client app = Some c ->
  (exists d calls,
     get_bot_response json_loads interp app m
     = (call_display_json_response (PDict d), calls)
     /\ meets_schema d)
  \/ (exists msg calls,
        get_bot_response json_loads interp app m
        = (call_display_error msg, calls)).
Proof.
  intros Hc. unfold get_bot_response, send_json_request. rewrite Hc.
  destruct (Gui.send_json_request json_loads c m 3 0%nat) as [[e|v] calls]
    eqn:E.
  - right. by eexists _, _.
  - left.
    destruct (send_returns json_loads c m 3 v calls (or_intror E))
      as [_ (chat & t & d & _ & _ & -> & Hd)].
    by exists d, calls.
Qed.

Lemma exchange_with_client app sent_at shown_at c :
  giga_client app = Some c -> ~ blank (message_entry_text app) ->
  exists app',
    exchange json_loads py_str interp app sent_at shown_at = (app', None)
    /\ giga_client app' = Some c
    /\ send_button app' = NORMAL
    /\ send_button_text app' = py "Отправить"
    /\ message_entry app' = NORMAL
    /\ chat_display app `prefix_of` chat_display app'
    /\ (saved_response_ok app -> saved_response_ok app').
Proof.
  intros Hc Hb.
  destruct (send_message_started app sent_at c Hc Hb)
    as (app1 & m & Hsend & _ & _ & Hc1 & Hl1 & Hs1 & _ & _ & _ & Hp1).
  unfold exchange. rewrite Hsend.
  destruct (get_bot_response_cases app1 m c Hc1)
    as [(d & calls & -> & Hd)|(msg & calls & ->)]; cbn [fst run].
  - unfold display_json_response.
    match goal with |- context [add_json_response _ ?a _ _] =>
      destruct (add_json_response_ok a shown_at d Hd) as [pieces ->] end.
    eexists. split; [reflexivity|]. simpl.
    repeat (split; [done|]). split.
    + etrans; [exact Hp1|]. by eexists.
    + intros _. right. by exists d.
  - eexists. split; [reflexivity|]. simpl.
    repeat (split; [done|]). split.
    + etrans; [exact Hp1|]. by eexists.
    + unfold saved_response_ok. simpl. by rewrite Hl1, Hs1.
Qed.

End WindowFacts.

(** X15. When [send_message] starts a request. It starts none, and leaves the
    window as it is, exactly when there is no client or the text typed is
    blank; otherwise the request carries the text without the white space
    around it, and the button and the entry are disabled. *)
Theorem send_message_starts_request (app : ChatBotGUI.App)
    (time_str : pystr) :
  ((ChatBotGUI.send_message app time_str).2 = None
   <-> ChatBotGUI.giga_client app = None
       \/ blank (ChatBotGUI.message_entry_text app))
  /\ ((ChatBotGUI.send_message app time_str).2 = None ->
      (ChatBotGUI.send_message app time_str).1 = app)
  /\ (forall m,
        (ChatBotGUI.send_message app time_str).2 = Some m ->
        m = strip (ChatBotGUI.message_entry_text app ++ [10%N])
        /\ m <> [] /\ strip m = m
        /\ ChatBotGUI.send_button (ChatBotGUI.send_message app time_str).1
           = ChatBotGUI.DISABLED
        /\ ChatBotGUI.message_entry (ChatBotGUI.send_message app time_str).1
           = ChatBotGUI.DISABLED).
Proof.
  destruct (ChatBotGUI.giga_client app) as [c|] eqn:Hc.
  - destruct (forallb isspace (ChatBotGUI.message_entry_text app)) eqn:Hb.
    + rewrite (send_message_idle app time_str (or_intror Hb)).
      split; [split; [by right|done]|]. split; [done|]. by intros m.
    + assert (Hnb : ~ blank (ChatBotGUI.message_entry_text app))
        by (unfold blank; congruence).
      destruct (send_message_started app time_str c Hc Hnb)
        as (app1 & m & -> & Hm & Hne & _ & _ & _ & Hs & He & _).
      split; [split; [done|by intros [H|H]]|]. split; [done|].
      intros m' H. simpl in H. injection H as <-.
      repeat (split; [done|]). split; [|done].
      rewrite Hm. apply strip_idem.
  - rewrite (send_message_idle app time_str (or_introl Hc)).
    split; [split; [by left|done]|]. split; [done|]. by intros m.
Qed.

(** X16. An exchange gives the input back. On a window with a client and a
    text that is not blank, whatever the provider and the decoder do, the
    exchange ends without an exception in the callback, with the send button
    enabled and labelled [Отправить] and the entry enabled; the chat keeps
    what it showed and the client is kept. *)
Theorem exchange_enables_input (json_loads : Decoder)
    (py_str : pyval -> pystr) (interp : exn -> pystr)
    (app : ChatBotGUI.App) (sent_at shown_at : pystr) (c : Provider) :
  ChatBotGUI.giga_client app = Some c ->
  ~ blank (ChatBotGUI.message_entry_text app) ->
  exists app',
    ChatBotGUI.exchange json_loads py_str interp app sent_at shown_at
    = (app', None)
    /\ ChatBotGUI.giga_client app' = Some c
    /\ ChatBotGUI.send_button app' = ChatBotGUI.NORMAL
    /\ ChatBotGUI.send_button_text app' = py "Отправить"
    /\ ChatBotGUI.message_entry app' = ChatBotGUI.NORMAL
    /\ ChatBotGUI.chat_display app `prefix_of` ChatBotGUI.chat_display app'.
Proof.
  intros Hc Hb.
  destruct (exchange_with_client json_loads py_str interp app sent_at
              shown_at c Hc Hb)
    as (app' & H1 & H2 & H3 & H4 & H5 & H6 & _).
  by exists app'.
Qed.

Lemma exchange_enables_input_witness :
  exists app',
    ChatBotGUI.exchange Fragment.json_loads str_of_text (fun _ => [])
      (window (scripted [] (py "null")) (py " hello ")) (py "10:00")
      (py "10:01")
    = (app', None)
    /\ ChatBotGUI.giga_client app' = Some (scripted [] (py "null"))
    /\ ChatBotGUI.send_button app' = ChatBotGUI.NORMAL
    /\ ChatBotGUI.send_button_text app' = py "Отправить"
    /\ ChatBotGUI.message_entry app' = ChatBotGUI.NORMAL
    /\ ChatBotGUI.chat_display
         (window (scripted [] (py "null")) (py " hello "))
       `prefix_of` ChatBotGUI.chat_display app'.
Proof.
  apply (exchange_enables_input Fragment.json_loads str_of_text
           (fun _ => []) (window (scripted [] (py "null")) (py " hello "))
           (py "10:00") (py "10:01") (scripted [] (py "null"))).
  - reflexivity.
  - intros H. vm_compute in H. discriminate.
Defined.

(** X17. What is saved is valid. When the window opens nothing is saved and
    the button that shows the saved response is disabled; after any
    exchange, either that is still so, or what is saved is a mapping that
    meets the schema and the button is enabled. *)
Theorem saved_response_stays_valid :
  (forall env connect time_str,
     saved_response_ok (ChatBotGUI.init env connect time_str).1)
  /\ (forall json_loads py_str interp app sent_at shown_at,
        saved_response_ok app ->
        saved_response_ok
          (ChatBotGUI.exchange json_loads py_str interp app sent_at
             shown_at).1).
Proof.
  split.
  - intros env connect time_str. left. unfold ChatBotGUI.init.
    destruct (ChatBotGUI.init_gigachat env connect) as [[c|] dialogs];
      by split.
  - intros json_loads py_str interp app sent_at shown_at Hok.
    destruct (ChatBotGUI.giga_client app) as [c|] eqn:Hc.
    + destruct (forallb isspace (ChatBotGUI.message_entry_text app)) eqn:Hb.
      * unfold ChatBotGUI.exchange.
        by rewrite (send_message_idle app sent_at (or_intror Hb)).
      * assert (Hnb : ~ blank (ChatBotGUI.message_entry_text app))
          by (unfold blank; congruence).
        destruct (exchange_with_client json_loads py_str interp app sent_at
                    shown_at c Hc Hnb) as (app' & -> & _ & _ & _ & _ & _ & H).
        by apply H.
    + unfold ChatBotGUI.exchange.
      by rewrite (send_message_idle app sent_at (or_introl Hc)).
Qed.

Lemma saved_response_stays_valid_witness :
  saved_response_ok
    (ChatBotGUI.exchange Fragment.json_loads str_of_text (fun _ => [])
       (window (scripted [] valid_object) (py "hello")) (py "10:00")
       (py "10:01")).1.
Proof.
  apply (proj2 saved_response_stays_valid).
  left. split; reflexivity.
Defined.

(** X18. What the chat shows for a response. For a mapping that meets the
    schema, [add_json_response] raises nothing and adds to the chat, in this
    order: the time, the label of the bot, the answer; if there is at least
    one key point, a heading, one bullet line for each key point in order,
    and an empty line, and nothing of that if there is none; then the
    sentiment under its Russian name. *)
Theorem add_json_response_renders (py_str : pyval -> pystr)
    (app : ChatBotGUI.App) (time_str : pystr) (d : gmap pystr pyval)
    (answer : pystr) (points : list pystr) (sentiment : pystr) :
  (forall x, py_str (PStr x) = x) ->
  d !! s_answer = Some (PStr answer) ->
  d !! s_key_points = Some (PList (PStr <$> points)) ->
  d !! s_sentiment = Some (PStr sentiment) ->
  sentiment ∈ [s_neutral; s_positive; s_negative] ->
  ChatBotGUI.add_json_response py_str app time_str (PDict d)
  = (ChatBotGUI.insert app (rendering time_str answer points sentiment),
     None).
Proof. apply add_json_response_rendering. Qed.

Lemma add_json_response_renders_witness :
  ChatBotGUI.add_json_response str_of_text
    (window garbled []) (py "10:01") (PDict d_minimal)
  = (ChatBotGUI.insert (window garbled [])
       [(py "[10:01] ", None);
        (py "Бот: ", Some ChatBotGUI.bot_tag);
        (py "x" ++ [10; 10]%N, None);
        (py "Тональность: ", Some ChatBotGUI.bot_tag);
        (py "Нейтральная" ++ [10; 10]%N, Some ChatBotGUI.sentiment_tag)],
     None).
Proof.
  etrans;
    [apply (add_json_response_renders str_of_text (window garbled [])
              (py "10:01") d_minimal (py "x") [] s_neutral);
     [intros x; reflexivity|reflexivity|reflexivity|reflexivity|]
    |vm_compute; reflexivity].
  apply elem_of_cons. by left.
Defined.

(** X19. No second request while one is pending. When [send_message] has
    started a request from a window whose entry was enabled, the entry is
    empty and disabled, and a further [send_message] before the callback
    starts nothing and changes nothing. *)
Theorem no_second_request_while_pending (app app1 : ChatBotGUI.App)
    (first second m : pystr) :
  ChatBotGUI.message_entry app = ChatBotGUI.NORMAL ->
  ChatBotGUI.send_message app first = (app1, Some m) ->
  ChatBotGUI.message_entry_text app1 = []
  /\ ChatBotGUI.message_entry app1 = ChatBotGUI.DISABLED
  /\ ChatBotGUI.send_message app1 second = (app1, None).
Proof.
  intros Hn Hsend.
  destruct (ChatBotGUI.giga_client app) as [c|] eqn:Hc;
    [|by rewrite (send_message_idle app first (or_introl Hc)) in Hsend].
  destruct (forallb isspace (ChatBotGUI.message_entry_text app)) eqn:Hb;
    [by rewrite (send_message_idle app first (or_intror Hb)) in Hsend|].
  assert (Hnb : ~ blank (ChatBotGUI.message_entry_text app))
    by (unfold blank; congruence).
  destruct (send_message_started app first c Hc Hnb)
    as (app2 & m2 & Hs2 & _ & _ & _ & _ & _ & _ & He & Ht & _).
  rewrite Hs2 in Hsend. injection Hsend as <- <-.
  rewrite Hn in Ht. split; [done|]. split; [done|].
  apply send_message_idle. right. by rewrite Ht.
Qed.

Lemma no_second_request_while_pending_witness :
  ChatBotGUI.message_entry_text
    (ChatBotGUI.send_message (window garbled (py "hello")) (py "10:00")).1
  = []
  /\ ChatBotGUI.message_entry
       (ChatBotGUI.send_message (window garbled (py "hello")) (py "10:00")).1
     = ChatBotGUI.DISABLED
  /\ ChatBotGUI.send_message
       (ChatBotGUI.send_message (window garbled (py "hello")) (py "10:00")).1
       (py "10:00")
     = ((ChatBotGUI.send_message (window garbled (py "hello"))
           (py "10:00")).1, None).
Proof.
  apply (no_second_request_while_pending (window garbled (py "hello")) _
           (py "10:00") (py "10:00") (py "hello")).
  - reflexivity.
  - vm_compute. reflexivity.
Defined.

(** X20. The window and the client. The window gets a client exactly when
    [get_gigachat_client] does for the same environment and connector, and
    then the same one, with the send button enabled and no dialog. When it
    gets none, one error dialog is shown, the send button is disabled, and
    no exchange starts a request or changes the window. *)
Theorem window_follows_client (env : gmap pystr pystr)
    (connect : Connector) (time_str : pystr) :
  match Client.get_gigachat_client env connect with
  | inr c =>
      ChatBotGUI.giga_client (ChatBotGUI.init env connect time_str).1 = Some c
      /\ ChatBotGUI.send_button (ChatBotGUI.init env connect time_str).1
         = ChatBotGUI.NORMAL
      /\ (ChatBotGUI.init env connect time_str).2 = []
  | inl _ =>
      ChatBotGUI.giga_client (ChatBotGUI.init env connect time_str).1 = None
      /\ ChatBotGUI.send_button (ChatBotGUI.init env connect time_str).1
         = ChatBotGUI.DISABLED
      /\ length (ChatBotGUI.init env connect time_str).2 = 1%nat
      /\ forall json_loads py_str interp sent_at shown_at,
           ChatBotGUI.exchange json_loads py_str interp
             (ChatBotGUI.init env connect time_str).1 sent_at shown_at
           = ((ChatBotGUI.init env connect time_str).1, None)
  end.
Proof.
  assert (Hidle : forall app,
    ChatBotGUI.giga_client app = None ->
    forall json_loads py_str interp sent_at shown_at,
      ChatBotGUI.exchange json_loads py_str interp app sent_at shown_at
      = (app, None)).
  { intros app Hc json_loads py_str interp sent_at shown_at.
    unfold ChatBotGUI.exchange.
    by rewrite (send_message_idle app sent_at (or_introl Hc)). }
  unfold Client.get_gigachat_client, ChatBotGUI.init,
    ChatBotGUI.init_gigachat.
  destruct (py_or _ _) as [[|c r]|].
  - repeat (split; [reflexivity|]). by apply Hidle.
  - destruct (connect (c :: r)) as [cause|client].
    + repeat (split; [reflexivity|]). by apply Hidle.
    + by repeat split.
  - repeat (split; [reflexivity|]). by apply Hidle.
Qed.

(** X21. What the worker schedules. [get_bot_response] raises nothing: for any
    window, provider and decoder it makes at most 3 provider calls and
    schedules one callback, which is the display of a mapping that meets the
    schema, or the display of an error message made of one of the three
    labels and the text of an exception that is not a [JSONDecodeError]. *)
Theorem worker_schedules_one_callback (json_loads : Decoder)
    (interp : exn -> pystr) (app : ChatBotGUI.App) (user_message : pystr) :
  ((ChatBotGUI.get_bot_response json_loads interp app user_message).2 <= 3)%nat
  /\ match (ChatBotGUI.get_bot_response json_loads interp app
              user_message).1 with
     | ChatBotGUI.call_display_json_response v =>
         exists d, v = PDict d /\ meets_schema d
     | ChatBotGUI.call_display_error msg =>
         exists e,
           (forall m, e <> JSONDecodeError m)
           /\ msg = (if is_value_error e then py "Ошибка валидации JSON: "
                     else if is_connection_error e
                          then py "Ошибка подключения: "
                     else py "Произошла ошибка: ") ++ str_exn interp e
     end.
Proof.
  unfold ChatBotGUI.get_bot_response, ChatBotGUI.send_json_request.
  destruct (ChatBotGUI.giga_client app) as [c|].
  - pose proof (send_calls json_loads c user_message 3) as [_ Hcalls].
    destruct (Gui.send_json_request json_loads c user_message 3 0%nat)
      as [[e|v] calls] eqn:E; cbn [fst snd] in *.
    + split; [lia|].
      destruct (send_raises json_loads c user_message 3 e calls)
        as [_ Hgui].
      destruct (Hgui E) as [Hne _]. by exists e.
    + split; [lia|].
      destruct (send_returns json_loads c user_message 3 v calls
                  (or_intror E)) as [_ (chat & t & d & _ & _ & -> & Hd)].
      by exists d.
  - cbn [fst snd]. split; [lia|].
    exists (ConnectionError (py "Клиент GigaChat не инициализирован")).
    split; [discriminate|reflexivity].
Qed.

(** ** The retry loop on the replies it retries on *)

(** X22. The retry bound. When [max_retries >= 1] and every reply is one the
    loop retries on (its cleaned form does not decode, or it decodes and the
    validator returns [False]), both files make exactly [max_retries] calls
    and then raise [ValueError]. *)
Theorem retry_bound_for_retried_replies (json_loads : Decoder)
    (client : Provider) (user_message : pystr) (max_retries : Z) :
  1 <= max_retries ->
  (forall i, exists t, answers client i t /\ rejected json_loads t) ->
  (exists msg,
     Api.send_json_request json_loads client user_message max_retries 0%nat
     = (inl (ValueError msg), Z.to_nat max_retries))
  /\ (exists msg,
        Gui.send_json_request json_loads client user_message max_retries 0%nat
        = (inl (ValueError msg), Z.to_nat max_retries)).
Proof. apply retry_bound_on_rejected. Qed.

Lemma retry_bound_for_retried_replies_witness :
  (exists msg,
     Api.send_json_request Fragment.json_loads
       (scripted [wrong_sentiment] (py "no json here")) (py "hi") 3 0%nat
     = (inl (ValueError msg), 3%nat))
  /\ (exists msg,
        Gui.send_json_request Fragment.json_loads
          (scripted [wrong_sentiment] (py "no json here")) (py "hi") 3 0%nat
        = (inl (ValueError msg), 3%nat)).
Proof.
  apply (retry_bound_for_retried_replies Fragment.json_loads
           (scripted [wrong_sentiment] (py "no json here")) (py "hi") 3).
  - lia.
  - intros i. exists (nth i [wrong_sentiment] (py "no json here")). split.
    + intros chat. reflexivity.
    + destruct i as [|i].
      * right. vm_compute. reflexivity.
      * left. exists (py "Expecting value").
        destruct i; vm_compute; reflexivity.
Defined.

(** X23. Success stops the loop. When [1 <= k <= max_retries], the first
    [k - 1] replies are ones the loop retries on and reply [k] is accepted,
    both files make exactly [k] calls and return the value reply [k] decodes
    to. *)
Theorem success_stops_the_loop (json_loads : Decoder) (client : Provider)
    (user_message : pystr) (max_retries : Z) (k : nat) (tk : pystr)
    (v : pyval) :
  (1 <= k)%nat -> Z.of_nat k <= max_retries ->
  (forall i, (i < k - 1)%nat ->
             exists t, answers client i t /\ rejected json_loads t) ->
  answers client (k - 1) tk -> accepted json_loads tk v ->
  Api.send_json_request json_loads client user_message max_retries 0%nat
  = (inr v, k)
  /\ Gui.send_json_request json_loads client user_message max_retries 0%nat
     = (inr v, k).
Proof. apply success_after_rejected. Qed.

Lemma success_stops_the_loop_witness :
  Api.send_json_request Fragment.json_loads
    (scripted [py "no json here"] valid_object) (py "hi") 3 0%nat
  = (inr valid_value, 2%nat)
  /\ Gui.send_json_request Fragment.json_loads
       (scripted [py "no json here"] valid_object) (py "hi") 3 0%nat
     = (inr valid_value, 2%nat).
Proof.
  apply (success_stops_the_loop Fragment.json_loads
           (scripted [py "no json here"] valid_object) (py "hi") 3 2%nat
           valid_object valid_value).
  - lia.
  - lia.
  - intros i Hi. exists (py "no json here"). split.
    + intros chat. assert (i = 0%nat) as -> by lia. reflexivity.
    + left. exists (py "Expecting value"). vm_compute. reflexivity.
  - intros chat. reflexivity.
  - vm_compute. reflexivity.
Defined.
